(** * cudf: type traits, zero-copy slicing, packing and scalar factories

    A shallow embedding of
      - cpp/include/cudf/utilities/traits.hpp     (module [Traits]),
      - cpp/include/cudf/detail/copy.hpp          (modules [Copy], [Pack]),
      - cpp/src/scalar/scalar_factories.cpp       (module [ScalarFactories]),
      - cpp/src/io/csv/reader_impl.hpp            (module [CsvReader]),
    over a model of the type tags ([Types]), of column views and the rows
    they show ([ColumnView]) and of boxed scalars ([Scalar]), followed by
    the properties of the trait registry, of [slice], of the scalar
    factories and of the pack/unpack round trip. *)

From Stdlib Require Import ZArith List Bool String Lia.
Import ListNotations.
Open Scope Z_scope.

(** ** Errors

    [CUDF_EXPECTS(cond, msg)] and [CUDF_FAIL(msg)] throw [cudf::logic_error]
    carrying the message.  A fallible function returns [result A]. *)

Inductive result (A : Type) : Type :=
| Ok (a : A)
| logic_error (msg : string).
Arguments Ok {A} a.
Arguments logic_error {A} msg.

Definition bind {A B : Type} (r : result A) (k : A -> result B) : result B :=
  match r with
  | Ok a => k a
  | logic_error msg => logic_error msg
  end.

Definition CUDF_EXPECTS (cond : bool) (msg : string) : result unit :=
  if cond then Ok tt else logic_error msg.

Definition CUDF_FAIL {A : Type} (msg : string) : result A := logic_error msg.

Definition succeeds {A : Type} (r : result A) : Prop := exists a, r = Ok a.
Definition fails {A : Type} (r : result A) : Prop := exists msg, r = logic_error msg.

Declare Scope result_scope.
Delimit Scope result_scope with result.
Notation "x <- r ;; k" := (bind r (fun x => k))
  (at level 61, r at next level, right associativity) : result_scope.
Notation "r ;;; k" := (bind r (fun _ => k))
  (at level 61, right associativity) : result_scope.

(** ** cudf/types.hpp *)

Module Types.

(** Modelled from the spec: the closed tag set [cudf::type_id] of
    cudf/types.hpp.  These are the tags that name an element type; every
    one of them maps to one native storage representation. *)
Inductive type_id : Set :=
| INT8 | INT16 | INT32 | INT64
| UINT8 | UINT16 | UINT32 | UINT64
| FLOAT32 | FLOAT64
| BOOL8
| TIMESTAMP_DAYS | TIMESTAMP_SECONDS | TIMESTAMP_MILLISECONDS
| TIMESTAMP_MICROSECONDS | TIMESTAMP_NANOSECONDS
| DURATION_DAYS | DURATION_SECONDS | DURATION_MILLISECONDS
| DURATION_MICROSECONDS | DURATION_NANOSECONDS
| DICTIONARY32
| STRING
| LIST
| DECIMAL32 | DECIMAL64
| STRUCT.

Definition all_type_ids : list type_id :=
  [ INT8; INT16; INT32; INT64; UINT8; UINT16; UINT32; UINT64;
    FLOAT32; FLOAT64; BOOL8;
    TIMESTAMP_DAYS; TIMESTAMP_SECONDS; TIMESTAMP_MILLISECONDS;
    TIMESTAMP_MICROSECONDS; TIMESTAMP_NANOSECONDS;
    DURATION_DAYS; DURATION_SECONDS; DURATION_MILLISECONDS;
    DURATION_MICROSECONDS; DURATION_NANOSECONDS;
    DICTIONARY32; STRING; LIST; DECIMAL32; DECIMAL64; STRUCT ].

Definition type_id_eq_dec (a b : type_id) : {a = b} + {a <> b}.
Proof. decide equality. Defined.

Definition type_id_eqb (a b : type_id) : bool :=
  if type_id_eq_dec a b then true else false.

(** [cudf::size_type] is [int32_t]. *)
Definition size_type := Z.
Definition INT32_MIN : Z := - 2 ^ 31.
Definition INT32_MAX : Z := 2 ^ 31 - 1.
Definition in_size_type (z : Z) : Prop := INT32_MIN <= z <= INT32_MAX.

(** Two's-complement reduction of an [int32_t] result. *)
Definition wrap_size_type (z : Z) : size_type :=
  (z + 2 ^ 31) mod 2 ^ 32 - 2 ^ 31.

(** Modelled from the spec: the sentinel [cudf::UNKNOWN_NULL_COUNT] of
    cudf/types.hpp (a null count that is not known and is computed on
    demand).  Every real null count is non-negative, the sentinel is not. *)
Definition UNKNOWN_NULL_COUNT : size_type := -1.

(** Modelled from the spec: [cudf::data_type], a type tag plus, for the
    fixed-point tags, a scale.  [data_type(id)] leaves the scale at 0. *)
Record data_type : Set := mk_data_type { id : type_id; scale : Z }.

Definition data_type_of_id (i : type_id) : data_type := mk_data_type i 0.

Definition data_type_eq_dec (a b : data_type) : {a = b} + {a <> b}.
Proof. decide equality; [apply Z.eq_dec | apply type_id_eq_dec]. Defined.

(** The C++ element types the tags stand for. *)
Inductive cpp_type : Set :=
| int8_t | int16_t | int32_t | int64_t
| uint8_t | uint16_t | uint32_t | uint64_t
| float_t | double_t
| bool_t
| timestamp_D | timestamp_s | timestamp_ms | timestamp_us | timestamp_ns
| duration_D | duration_s | duration_ms | duration_us | duration_ns
| dictionary32
| string_view
| list_view
| decimal32 | decimal64
| struct_view.

Definition cpp_type_eq_dec (a b : cpp_type) : {a = b} + {a <> b}.
Proof. decide equality. Defined.

(** [std::is_same_v<A, B>] *)
Definition is_same_v (A B : cpp_type) : bool :=
  if cpp_type_eq_dec A B then true else false.

(** [std::is_integral<T>::value]: the integer types, [bool] included. *)
Definition is_integral (T : cpp_type) : bool :=
  match T with
  | int8_t | int16_t | int32_t | int64_t
  | uint8_t | uint16_t | uint32_t | uint64_t
  | bool_t => true
  | _ => false
  end.

(** [std::is_floating_point<T>::value] *)
Definition is_floating_point_std (T : cpp_type) : bool :=
  match T with
  | float_t | double_t => true
  | _ => false
  end.

(** [std::is_unsigned<T>::value] *)
Definition is_unsigned_std (T : cpp_type) : bool :=
  match T with
  | uint8_t | uint16_t | uint32_t | uint64_t | bool_t => true
  | _ => false
  end.

(** Modelled from the spec: [id_to_type<Id>] / [type_to_id<T>()] of
    cudf/utilities/type_dispatcher.hpp, the one-to-one map between tags and
    element types. *)
Definition id_to_type (i : type_id) : cpp_type :=
  match i with
  | INT8 => int8_t | INT16 => int16_t | INT32 => int32_t | INT64 => int64_t
  | UINT8 => uint8_t | UINT16 => uint16_t
  | UINT32 => uint32_t | UINT64 => uint64_t
  | FLOAT32 => float_t | FLOAT64 => double_t
  | BOOL8 => bool_t
  | TIMESTAMP_DAYS => timestamp_D
  | TIMESTAMP_SECONDS => timestamp_s
  | TIMESTAMP_MILLISECONDS => timestamp_ms
  | TIMESTAMP_MICROSECONDS => timestamp_us
  | TIMESTAMP_NANOSECONDS => timestamp_ns
  | DURATION_DAYS => duration_D
  | DURATION_SECONDS => duration_s
  | DURATION_MILLISECONDS => duration_ms
  | DURATION_MICROSECONDS => duration_us
  | DURATION_NANOSECONDS => duration_ns
  | DICTIONARY32 => dictionary32
  | STRING => string_view
  | LIST => list_view
  | DECIMAL32 => decimal32
  | DECIMAL64 => decimal64
  | STRUCT => struct_view
  end.

Definition type_to_id (T : cpp_type) : type_id :=
  match T with
  | int8_t => INT8 | int16_t => INT16 | int32_t => INT32 | int64_t => INT64
  | uint8_t => UINT8 | uint16_t => UINT16
  | uint32_t => UINT32 | uint64_t => UINT64
  | float_t => FLOAT32 | double_t => FLOAT64
  | bool_t => BOOL8
  | timestamp_D => TIMESTAMP_DAYS
  | timestamp_s => TIMESTAMP_SECONDS
  | timestamp_ms => TIMESTAMP_MILLISECONDS
  | timestamp_us => TIMESTAMP_MICROSECONDS
  | timestamp_ns => TIMESTAMP_NANOSECONDS
  | duration_D => DURATION_DAYS
  | duration_s => DURATION_SECONDS
  | duration_ms => DURATION_MILLISECONDS
  | duration_us => DURATION_MICROSECONDS
  | duration_ns => DURATION_NANOSECONDS
  | dictionary32 => DICTIONARY32
  | string_view => STRING
  | list_view => LIST
  | decimal32 => DECIMAL32
  | decimal64 => DECIMAL64
  | struct_view => STRUCT
  end.

(** Modelled from the spec: [cudf::type_dispatcher(dtype, f, args...)] of
    cudf/utilities/type_dispatcher.hpp: calls the instantiation of the
    functor's templated call operator at the element type of the tag.  The
    functor is a function of the element type. *)
Definition type_dispatcher {R : Type} (dtype : data_type) (f : cpp_type -> R) : R :=
  f (id_to_type (id dtype)).

(** [cudf::device_storage_type_t<T>]: the fixed-point classes are stored as
    their integer representation, every other type as itself. *)
Definition device_storage_type_t (T : cpp_type) : cpp_type :=
  match T with
  | decimal32 => int32_t
  | decimal64 => int64_t
  | _ => T
  end.

End Types.
Export Types.

(** ** cudf/utilities/traits.hpp *)

Module Traits.

(** [is_timestamp_t<T>]: the disjunction of [std::is_same] over the five
    timestamp classes. *)
Definition is_timestamp_t (T : cpp_type) : bool :=
  is_same_v timestamp_D T || is_same_v timestamp_s T || is_same_v timestamp_ms T
  || is_same_v timestamp_us T || is_same_v timestamp_ns T.

Definition is_duration_t (T : cpp_type) : bool :=
  is_same_v duration_D T || is_same_v duration_s T || is_same_v duration_ms T
  || is_same_v duration_us T || is_same_v duration_ns T.

(** The templates [is_xxx<T>()] are written [is_xxx_v]; the overloads on
    [data_type] keep the plain name and go through [type_dispatcher]. *)

Definition is_numeric_v (T : cpp_type) : bool :=
  is_integral T || is_floating_point_std T.

Definition is_numeric_impl : cpp_type -> bool := fun T => is_numeric_v T.

Definition is_numeric (type : data_type) : bool :=
  type_dispatcher type is_numeric_impl.

Definition is_index_type_v (T : cpp_type) : bool :=
  is_integral T && negb (is_same_v T bool_t).

Definition is_index_type_impl : cpp_type -> bool := fun T => is_index_type_v T.

Definition is_index_type (type : data_type) : bool :=
  type_dispatcher type is_index_type_impl.

Definition is_unsigned_v (T : cpp_type) : bool := is_unsigned_std T.

Definition is_unsigned_impl : cpp_type -> bool := fun T => is_unsigned_v T.

Definition is_unsigned (type : data_type) : bool :=
  type_dispatcher type is_unsigned_impl.

Definition is_floating_point_v (T : cpp_type) : bool := is_floating_point_std T.

Definition is_floating_point_impl : cpp_type -> bool :=
  fun T => is_floating_point_v T.

Definition is_floating_point (type : data_type) : bool :=
  type_dispatcher type is_floating_point_impl.

Definition is_boolean_v (T : cpp_type) : bool := is_same_v T bool_t.

Definition is_boolean_impl : cpp_type -> bool := fun T => is_boolean_v T.

Definition is_boolean (type : data_type) : bool :=
  type_dispatcher type is_boolean_impl.

Definition is_timestamp_v (T : cpp_type) : bool := is_timestamp_t T.

Definition is_timestamp_impl : cpp_type -> bool := fun T => is_timestamp_v T.

Definition is_timestamp (type : data_type) : bool :=
  type_dispatcher type is_timestamp_impl.

Definition is_fixed_point_v (T : cpp_type) : bool :=
  is_same_v decimal32 T || is_same_v decimal64 T.

Definition is_fixed_point_impl : cpp_type -> bool := fun T => is_fixed_point_v T.

Definition is_fixed_point (type : data_type) : bool :=
  type_dispatcher type is_fixed_point_impl.

Definition is_duration_v (T : cpp_type) : bool := is_duration_t T.

Definition is_duration_impl : cpp_type -> bool := fun T => is_duration_v T.

Definition is_duration (type : data_type) : bool :=
  type_dispatcher type is_duration_impl.

Definition is_chrono_v (T : cpp_type) : bool :=
  is_duration_v T || is_timestamp_v T.

Definition is_chrono_impl : cpp_type -> bool := fun T => is_chrono_v T.

Definition is_chrono (type : data_type) : bool :=
  type_dispatcher type is_chrono_impl.

Definition is_rep_layout_compatible (T : cpp_type) : bool :=
  is_numeric_v T || is_chrono_v T || is_boolean_v T.

Definition is_dictionary_v (T : cpp_type) : bool := is_same_v dictionary32 T.

Definition is_dictionary_impl : cpp_type -> bool := fun T => is_dictionary_v T.

Definition is_dictionary (type : data_type) : bool :=
  type_dispatcher type is_dictionary_impl.

Definition is_fixed_width_v (T : cpp_type) : bool :=
  is_numeric_v T || is_chrono_v T || is_fixed_point_v T.

Definition is_fixed_width_impl : cpp_type -> bool := fun T => is_fixed_width_v T.

Definition is_fixed_width (type : data_type) : bool :=
  type_dispatcher type is_fixed_width_impl.

Definition is_compound_v (T : cpp_type) : bool :=
  is_same_v T string_view || is_same_v T dictionary32
  || is_same_v T list_view || is_same_v T struct_view.

Definition is_compound_impl : cpp_type -> bool := fun T => is_compound_v T.

Definition is_compound (type : data_type) : bool :=
  type_dispatcher type is_compound_impl.

Definition is_nested_v (T : cpp_type) : bool :=
  is_same_v T list_view || is_same_v T struct_view.

Definition is_nested_impl : cpp_type -> bool := fun T => is_nested_v T.

Definition is_nested (type : data_type) : bool :=
  type_dispatcher type is_nested_impl.

(** The three families the header has no predicate of their own for; it
    tests them with [std::is_same_v] inside [is_compound] and [is_nested]. *)
Definition is_string_v (T : cpp_type) : bool := is_same_v T string_view.
Definition is_list_v (T : cpp_type) : bool := is_same_v T list_view.
Definition is_struct_v (T : cpp_type) : bool := is_same_v T struct_view.

Definition is_string (type : data_type) : bool := type_dispatcher type is_string_v.
Definition is_list (type : data_type) : bool := type_dispatcher type is_list_v.
Definition is_struct (type : data_type) : bool := type_dispatcher type is_struct_v.

(** The nine families of the fundamental classification, in the order
    numeric, timestamp, duration, fixed-point, boolean, dictionary, list,
    struct, string. *)
Definition trait_families (type : data_type) : list bool :=
  [ is_numeric type; is_timestamp type; is_duration type; is_fixed_point type;
    is_boolean type; is_dictionary type; is_list type; is_struct type;
    is_string type ].

Definition count_true (l : list bool) : nat :=
  List.length (List.filter (fun b => b) l).

(** *** is_bit_castable

    [sizeof] of the view and fixed-point classes, and whether the view
    classes are trivially copyable, is fixed by class definitions that
    traits.hpp only forward-declares or includes; they are parameters of
    the embedding. *)
Record class_layout : Set := {
  sizeof_class : cpp_type -> Z;
  trivially_copyable_view : cpp_type -> bool
}.

(** [sizeof(T)] of the arithmetic types and of the chrono classes, which
    wrap one tick count ([int32_t] for days, [int64_t] otherwise). *)
Definition sizeof_plain (T : cpp_type) : Z :=
  match T with
  | int8_t | uint8_t | bool_t => 1
  | int16_t | uint16_t => 2
  | int32_t | uint32_t | float_t => 4
  | int64_t | uint64_t | double_t => 8
  | timestamp_D | duration_D => 4
  | timestamp_s | timestamp_ms | timestamp_us | timestamp_ns => 8
  | duration_s | duration_ms | duration_us | duration_ns => 8
  | _ => 0
  end.

Section BitCast.
Variable L : class_layout.

(** [sizeof(T)] in bytes. *)
Definition sizeof (T : cpp_type) : Z :=
  match T with
  | dictionary32 | string_view | list_view | struct_view
  | decimal32 | decimal64 => sizeof_class L T
  | _ => sizeof_plain T
  end.

(** [cuda::std::is_trivially_copyable_v<T>]: the arithmetic types, and the
    chrono and fixed-point classes, which hold plain integers. *)
Definition is_trivially_copyable_v (T : cpp_type) : bool :=
  match T with
  | dictionary32 | string_view | list_view | struct_view =>
      trivially_copyable_view L T
  | _ => true
  end.

(** [sizeof(cudf::device_storage_type_t<T>)] *)
Definition storage_size (T : cpp_type) : Z := sizeof (device_storage_type_t T).

Definition is_bit_castable_to_impl (FromType ToType : cpp_type) : bool :=
  if is_compound_v ToType then false
  else
    if negb (is_trivially_copyable_v FromType)
       || negb (is_trivially_copyable_v ToType)
    then false
    else storage_size FromType =? storage_size ToType.

Definition is_bit_castable_from_impl (FromType : cpp_type) (to : data_type) : bool :=
  if is_compound_v FromType then false
  else type_dispatcher to (is_bit_castable_to_impl FromType).

Definition is_bit_castable (from to : data_type) : bool :=
  type_dispatcher from (fun FromType => is_bit_castable_from_impl FromType to).

End BitCast.

(** A layout to run [is_bit_castable] with: 16-byte, trivially copyable
    classes. *)
Definition sample_layout : class_layout :=
  {| sizeof_class := fun _ => 16; trivially_copyable_view := fun _ => true |}.

End Traits.
Export Traits.

(** ** cudf/column/column_view.hpp: the view model *)

Module ColumnView.

(** A device address; [None] is [nullptr]. *)
Definition pointer : Set := option Z.

(** Modelled from the spec: [cudf::column_view], the non-owning descriptor
    {type, element count, offset into the value storage, head pointer,
    optional null-bitmask pointer, null count, ordered child views} of
    cudf/column/column_view.hpp.  The constructor takes its arguments in
    the order (type, size, head, null_mask, null_count, offset, children);
    it is taken as total, the argument checks it makes in column_view.cpp
    are not embedded. *)
#[local] Unset Elimination Schemes.
Inductive column_view : Set :=
| mk_column_view (type_ : data_type) (size_ : size_type)
                 (head_ : pointer) (null_mask_ : pointer)
                 (null_count_ : size_type) (offset_ : size_type)
                 (children_ : list column_view).
#[local] Set Elimination Schemes.

Definition type (v : column_view) : data_type :=
  let (t, _, _, _, _, _, _) := v in t.
Definition size (v : column_view) : size_type :=
  let (_, n, _, _, _, _, _) := v in n.
Definition head (v : column_view) : pointer :=
  let (_, _, h, _, _, _, _) := v in h.
Definition null_mask (v : column_view) : pointer :=
  let (_, _, _, m, _, _, _) := v in m.
Definition null_count (v : column_view) : size_type :=
  let (_, _, _, _, c, _, _) := v in c.
Definition offset (v : column_view) : size_type :=
  let (_, _, _, _, _, o, _) := v in o.
Definition children (v : column_view) : list column_view :=
  let (_, _, _, _, _, _, cs) := v in cs.

Definition num_children (v : column_view) : size_type :=
  Z.of_nat (List.length (children v)).

(** [child(index)] is [_children[index]]. *)
Definition child (v : column_view) (index : size_type) : option column_view :=
  if index <? 0 then None else nth_error (children v) (Z.to_nat index).

(** The invariant of the data model: the offset and the count are not
    negative, and the end [offset + size] of the viewed window is still a
    [size_type]. *)
Definition view_invariant (v : column_view) : Prop :=
  0 <= offset v /\ 0 <= size v /\ offset v + size v <= INT32_MAX.

(** *** Reading rows through a view *)

(** Device memory, one byte per address. *)
Definition device_memory : Type := Z -> Z.

(** Bit [j] of the bitmask stored at address [mask]: bit [j mod 8] of byte
    [j / 8] (bits are numbered from the least significant one). *)
Definition bit_is_set (mem : device_memory) (mask : Z) (j : Z) : bool :=
  Z.testbit (mem (mask + j / 8)) (j mod 8).

(** Bytes in the storage of one element of a non-compound type: the size of
    its device storage type.  A compound parent holds no element bytes. *)
Definition element_size (t : data_type) : Z :=
  sizeof_plain (device_storage_type_t (id_to_type (id t))).

Definition read_bytes (mem : device_memory) (addr : Z) (n : Z) : list Z :=
  List.map (fun k => mem (addr + Z.of_nat k)) (List.seq 0 (Z.to_nat n)).

(** Modelled from the spec: validity of row [i] of a view.  The bitmask,
    when there is one, is indexed by the absolute position [offset + i];
    a view without a bitmask has no nulls. *)
Definition is_valid (mem : device_memory) (v : column_view) (i : size_type) : bool :=
  match null_mask v with
  | None => true
  | Some m => bit_is_set mem m (offset v + i)
  end.

(** Modelled from the spec: the stored bytes of row [i], read at the
    absolute position [offset + i] behind the head pointer. *)
Definition element_bytes (mem : device_memory) (v : column_view) (i : size_type)
  : list Z :=
  match head v with
  | None => []
  | Some h =>
      read_bytes mem (h + (offset v + i) * element_size (type v))
                 (element_size (type v))
  end.

(** What a view shows: per row its validity and stored bytes, and the same
    for every child. *)
#[local] Unset Elimination Schemes.
Inductive column_data : Set :=
| mk_column_data (data_type_ : data_type)
                 (rows_ : list (bool * list Z))
                 (children_ : list column_data).
#[local] Set Elimination Schemes.

Definition row_indices (n : size_type) : list size_type :=
  List.map Z.of_nat (List.seq 0 (Z.to_nat n)).

Fixpoint view_data (mem : device_memory) (v : column_view) : column_data :=
  match v with
  | mk_column_view t n h m c o cs =>
      mk_column_data t
        (List.map (fun i => (is_valid mem (mk_column_view t n h m c o cs) i,
                             element_bytes mem (mk_column_view t n h m c o cs) i))
                  (row_indices n))
        (List.map (view_data mem) cs)
  end.

(** The value of a row.  A row of a non-compound column is its stored
    bytes.  The children of a compound column jointly represent its rows,
    and the parent addresses them by absolute position: such a row is that
    position together with what the children show. *)
Inductive row_value : Set :=
| stored (bytes : list Z)
| composed (position : Z) (members : list column_data).

Record element : Set := mk_element { valid : bool; value : row_value }.

(** Modelled from the spec: row [i] of a view, for [0 <= i < size]. *)
Definition element_at (mem : device_memory) (v : column_view) (i : size_type)
  : element :=
  {| valid := is_valid mem v i;
     value := if is_compound (type v)
              then composed (offset v + i) (List.map (view_data mem) (children v))
              else stored (element_bytes mem v i) |}.

(** A view to run the operations on: eight INT32 rows at offset 1 with a
    bitmask and two known nulls. *)
Definition sample_view : column_view :=
  mk_column_view (data_type_of_id INT32) 8 (Some 4096) (Some 8192) 2 1 [].

(** A dictionary column of three rows (children: indices, keys) and a
    struct column of two rows with one INT32 member. *)
Definition sample_dictionary_view : column_view :=
  mk_column_view (data_type_of_id DICTIONARY32) 3 None None 0 0
    [ mk_column_view (data_type_of_id INT32) 3 (Some 256) None 0 0 [];
      mk_column_view (data_type_of_id INT64) 2 (Some 512) None 0 0 [] ].

Definition sample_struct_view : column_view :=
  mk_column_view (data_type_of_id STRUCT) 2 None None 0 0
    [ mk_column_view (data_type_of_id INT32) 2 (Some 1024) None 0 0 [] ].

End ColumnView.
Export ColumnView.

(** ** cudf/scalar/scalar.hpp *)

Module Scalar.

(** What a boxed scalar holds. *)
Inductive scalar_data : Set :=
| fixed_width_data (rep : Z)
| string_data (str : string)
| list_data (elements : column_view)
| row_data (row : row_value).

(** Modelled from the spec: [cudf::scalar], a boxed single value of a
    given type carrying a validity flag (cudf/scalar/scalar.hpp). *)
Record scalar : Set := mk_scalar {
  scalar_type : data_type;
  scalar_value : scalar_data;
  is_valid_flag : bool
}.

(** [scalar::set_valid_async(is_valid, stream)] *)
Definition set_valid_async (s : scalar) (is_valid : bool) : scalar :=
  {| scalar_type := scalar_type s;
     scalar_value := scalar_value s;
     is_valid_flag := is_valid |}.

(** [Type{}]: the value-initialised device storage value, all bits zero. *)
Definition value_initialized (T : cpp_type) : Z := 0.

(** Modelled from the spec: the constructors of the scalar classes
    [scalar_type_t<T>].  [numeric_scalar], [timestamp_scalar] and
    [duration_scalar] take (value, is_valid) and have the type of [T]'s
    tag; [fixed_point_scalar] takes (value, scale, is_valid) and has the
    type of [T]'s tag with that scale. *)
Definition fixed_width_scalar (T : cpp_type) (value : Z) (is_valid : bool) : scalar :=
  mk_scalar (data_type_of_id (type_to_id T)) (fixed_width_data value) is_valid.

Definition fixed_point_scalar (T : cpp_type) (value : Z) (scale : Z)
  (is_valid : bool) : scalar :=
  mk_scalar (mk_data_type (type_to_id T) scale) (fixed_width_data value) is_valid.

Definition string_scalar (str : string) (is_valid : bool) : scalar :=
  mk_scalar (data_type_of_id STRING) (string_data str) is_valid.

Definition list_scalar (elements : column_view) (is_valid : bool) : scalar :=
  mk_scalar (data_type_of_id LIST) (list_data elements) is_valid.

(** The null scalar of tag [i] with value zero and scale zero. *)
Definition null_zero (i : type_id) : scalar :=
  mk_scalar (data_type_of_id i) (fixed_width_data 0) false.

End Scalar.
Export Scalar.

(** ** cudf/detail/copy.hpp *)

Module Copy.

(** The loop of [slice] that copies the child views one by one. *)
Fixpoint collect_children (input : column_view) (index : nat) (count : nat)
  : list column_view :=
  match count with
  | O => []
  | S count' =>
      match child input (Z.of_nat index) with
      | Some c => c :: collect_children input (S index) count'
      | None => collect_children input (S index) count'
      end
  end.

Local Open Scope result_scope.

Definition slice (input : column_view) (begin end_ : size_type)
  : result column_view :=
  CUDF_EXPECTS (begin >=? 0) "Invalid beginning of range." ;;;
  CUDF_EXPECTS (end_ >=? begin) "Invalid end of range." ;;;
  CUDF_EXPECTS (end_ <=? size input) "Slice range out of bounds." ;;;
  let children :=
    collect_children input 0 (Z.to_nat (num_children input)) in
  Ok (mk_column_view (type input)
                     (wrap_size_type (end_ - begin))
                     (head input)
                     (null_mask input)
                     UNKNOWN_NULL_COUNT
                     (wrap_size_type (offset input + begin))
                     children).

(** Modelled from the spec: [get_element(view, index)], declared in
    copy.hpp and defined elsewhere: the value and null-ness of one row as a
    boxed scalar of the view's type; fails when [index] is outside
    [0, size). *)
Definition get_element (mem : device_memory) (input : column_view)
  (index : size_type) : result scalar :=
  CUDF_EXPECTS ((index >=? 0) && (index <? size input)) "Index out of bounds" ;;;
  let e := element_at mem input index in
  Ok (mk_scalar (type input) (row_data (value e)) (valid e)).

(** Modelled from the spec: [empty_like(column)], declared in
    cudf/copying.hpp and defined elsewhere: a column of no rows with the
    type of the input and the same (empty) child structure. *)
Fixpoint empty_like (input : column_view) : column_view :=
  match input with
  | mk_column_view t _ _ _ _ _ cs =>
      mk_column_view t 0 None None 0 0 (List.map empty_like cs)
  end.

End Copy.
Export Copy.

(** ** cpp/src/scalar/scalar_factories.cpp

    The stream and the memory resource every factory takes are passed
    through unchanged; they are left out. *)

Module ScalarFactories.

Local Open Scope result_scope.

(** [scalar_construction_helper]: three overloads of the call operator,
    selected by [enable_if] on the element type. *)
Definition scalar_construction_helper (T : cpp_type) : result scalar :=
  if is_fixed_width_v T && negb (is_fixed_point_v T) then
    let Type_ := device_storage_type_t T in
    Ok (fixed_width_scalar T (value_initialized Type_) false)
  else if is_fixed_point_v T then
    let Type_ := device_storage_type_t T in
    Ok (fixed_point_scalar T (value_initialized Type_) 0 false)
  else
    CUDF_FAIL "Invalid type.".

Definition make_numeric_scalar (type : data_type) : result scalar :=
  CUDF_EXPECTS (is_numeric type) "Invalid, non-numeric type." ;;;
  type_dispatcher type scalar_construction_helper.

Definition make_timestamp_scalar (type : data_type) : result scalar :=
  CUDF_EXPECTS (is_timestamp type) "Invalid, non-timestamp type." ;;;
  type_dispatcher type scalar_construction_helper.

Definition make_duration_scalar (type : data_type) : result scalar :=
  CUDF_EXPECTS (is_duration type) "Invalid, non-duration type." ;;;
  type_dispatcher type scalar_construction_helper.

Definition make_fixed_width_scalar (type : data_type) : result scalar :=
  CUDF_EXPECTS (is_fixed_width type) "Invalid, non-fixed-width type." ;;;
  type_dispatcher type scalar_construction_helper.

Definition make_list_scalar (elements : column_view) : scalar :=
  list_scalar elements true.

(** [default_scalar_functor]: the primary template and its four explicit
    specialisations. *)
Definition default_scalar_functor (T : cpp_type) : result scalar :=
  match T with
  | string_view => Ok (string_scalar EmptyString false)
  | dictionary32 => CUDF_FAIL "dictionary type not supported"
  | list_view => CUDF_FAIL "list_view type not supported"
  | struct_view => CUDF_FAIL "struct_view type not supported"
  | _ => make_fixed_width_scalar (data_type_of_id (type_to_id T))
  end.

Definition make_default_constructed_scalar (type : data_type) : result scalar :=
  type_dispatcher type default_scalar_functor.

Definition make_empty_scalar_like (mem : device_memory) (column : column_view)
  : result scalar :=
  match id (ColumnView.type column) with
  | LIST =>
      let result := make_list_scalar (empty_like column) in
      Ok (set_valid_async result false)
  | STRUCT =>
      result <- get_element mem column 0 ;;
      Ok (set_valid_async result false)
  | _ => make_default_constructed_scalar (ColumnView.type column)
  end.

End ScalarFactories.
Export ScalarFactories.

(** ** cudf/copying.hpp: pack and unpack *)

Module Pack.

Local Open Scope result_scope.

(** [cudf::table_view]: the columns of a table, in order. *)
Definition table_view : Set := list column_view.

Definition num_columns (t : table_view) : size_type := Z.of_nat (List.length t).

(** The row count of a table is the size of its columns (0 without
    columns). *)
Definition num_rows (t : table_view) : size_type :=
  match t with
  | [] => 0
  | c :: _ => size c
  end.

(** The invariant of the data model on a view and, recursively, on all of
    its children. *)
#[local] Unset Elimination Schemes.
Inductive tree_invariant : column_view -> Prop :=
| tree_invariant_node (v : column_view) :
    view_invariant v ->
    List.Forall tree_invariant (children v) ->
    tree_invariant v.
#[local] Set Elimination Schemes.

(** The integer a type tag is stored as: its position in the enumeration
    (0 is not the code of an element type). *)
Definition type_id_code (i : type_id) : Z :=
  match i with
  | INT8 => 1 | INT16 => 2 | INT32 => 3 | INT64 => 4
  | UINT8 => 5 | UINT16 => 6 | UINT32 => 7 | UINT64 => 8
  | FLOAT32 => 9 | FLOAT64 => 10
  | BOOL8 => 11
  | TIMESTAMP_DAYS => 12 | TIMESTAMP_SECONDS => 13
  | TIMESTAMP_MILLISECONDS => 14 | TIMESTAMP_MICROSECONDS => 15
  | TIMESTAMP_NANOSECONDS => 16
  | DURATION_DAYS => 17 | DURATION_SECONDS => 18
  | DURATION_MILLISECONDS => 19 | DURATION_MICROSECONDS => 20
  | DURATION_NANOSECONDS => 21
  | DICTIONARY32 => 22
  | STRING => 23
  | LIST => 24
  | DECIMAL32 => 25 | DECIMAL64 => 26
  | STRUCT => 27
  end.

Definition type_id_of_code (code : Z) : option type_id :=
  List.find (fun i => type_id_code i =? code) all_type_ids.

(** Modelled from the spec: [cudf::packed_columns], a metadata block that
    describes the tree of column shapes, types and offsets, and one
    contiguous data block with the values and null masks of every column
    the metadata refers to.  The metadata is kept as its sequence of
    integer fields, the data block as its bytes. *)
Record packed_columns : Set := mk_packed_columns {
  metadata : list Z;
  gpu_data : list Z
}.

(** The bytes behind a view's head pointer, from the head to the end of
    the viewed window, and likewise the bytes of its bitmask. *)
Definition value_bytes (mem : device_memory) (v : column_view) : list Z :=
  match head v with
  | None => []
  | Some h => read_bytes mem h ((offset v + size v) * element_size (type v))
  end.

Definition mask_bytes (mem : device_memory) (v : column_view) : list Z :=
  match null_mask v with
  | None => []
  | Some m => read_bytes mem m ((offset v + size v + 7) / 8)
  end.

(** A pointer that is present is replaced by a position in the data
    block. *)
Definition place (p : pointer) (pos : Z) : pointer :=
  match p with
  | None => None
  | Some _ => Some pos
  end.

(** Modelled from the spec: the copy pass of [pack].  The value bytes and
    mask bytes of a column, then those of its children in order, are
    appended to the data block, which already holds [pos] bytes; the view
    that comes back has every pointer replaced by the offset of its copy
    relative to the start of the block. *)
Fixpoint layout_column (mem : device_memory) (pos : Z) (v : column_view)
  : column_view * list Z :=
  match v with
  | mk_column_view t n h m c o cs =>
      let data := value_bytes mem (mk_column_view t n h m c o cs) in
      let mask := mask_bytes mem (mk_column_view t n h m c o cs) in
      let pos_mask := pos + Z.of_nat (List.length data) in
      let pos_children := pos_mask + Z.of_nat (List.length mask) in
      let fix layout_children (pos : Z) (cs : list column_view)
        : list column_view * list Z :=
        match cs with
        | [] => ([], [])
        | x :: xs =>
            let (x', bytes_x) := layout_column mem pos x in
            let (xs', bytes_xs) :=
              layout_children (pos + Z.of_nat (List.length bytes_x)) xs in
            (x' :: xs', bytes_x ++ bytes_xs)
        end in
      let (cs', bytes) := layout_children pos_children cs in
      (mk_column_view t n (place h pos) (place m pos_mask) c o cs',
       data ++ mask ++ bytes)
  end.

Fixpoint layout_columns (mem : device_memory) (pos : Z) (cs : list column_view)
  : list column_view * list Z :=
  match cs with
  | [] => ([], [])
  | x :: xs =>
      let (x', bytes_x) := layout_column mem pos x in
      let (xs', bytes_xs) :=
        layout_columns mem (pos + Z.of_nat (List.length bytes_x)) xs in
      (x' :: xs', bytes_x ++ bytes_xs)
  end.

(** A stored offset; -1 stands for "no buffer". *)
Definition offset_field (p : pointer) : Z :=
  match p with
  | None => -1
  | Some off => off
  end.

(** Modelled from the spec: the metadata of one column, in pre-order: its
    type tag and scale, size, null count, offset, the relative offsets of
    its data and mask, the number of children, then the children. *)
Fixpoint serialize_column (v : column_view) : list Z :=
  match v with
  | mk_column_view t n h m c o cs =>
      [ type_id_code (id t); scale t; n; c; o;
        offset_field h; offset_field m; Z.of_nat (List.length cs) ]
      ++ List.flat_map serialize_column cs
  end.

(** Modelled from the spec: [pack(table)], declared in copy.hpp and
    defined elsewhere.  The metadata opens with the number of columns. *)
Definition pack (mem : device_memory) (input : table_view) : packed_columns :=
  let (relative, bytes) := layout_columns mem 0 input in
  {| metadata := num_columns input :: List.flat_map serialize_column relative;
     gpu_data := bytes |}.

(** Reconstruction adds the base address of the data block to a stored
    relative offset. *)
Definition rebase (base : Z) (off : Z) : pointer :=
  if off <? 0 then None else Some (base + off).

(** Modelled from the spec: reading [count] columns back from the
    metadata.  An unknown type tag, a negative child count and a block
    that ends early are failures.  Every column consumes one unit of
    [fuel]. *)
Fixpoint parse_columns (fuel : nat) (base : Z) (count : nat) (ws : list Z)
  : result (list column_view * list Z) :=
  match count with
  | O => Ok ([], ws)
  | S count' =>
      match fuel with
      | O => logic_error "Truncated metadata."
      | S fuel' =>
          match ws with
          | code :: sc :: n :: c :: o :: data_off :: mask_off :: kids :: rest =>
              match type_id_of_code code with
              | None => logic_error "Unknown type tag."
              | Some i =>
                  CUDF_EXPECTS (0 <=? kids) "Invalid child count." ;;;
                  r <- parse_columns fuel' base (Z.to_nat kids) rest ;;
                  let (cs, rest1) := r in
                  r' <- parse_columns fuel' base count' rest1 ;;
                  let (siblings, rest2) := r' in
                  Ok (mk_column_view (mk_data_type i sc) n
                        (rebase base data_off) (rebase base mask_off) c o cs
                      :: siblings, rest2)
              end
          | _ => logic_error "Truncated metadata."
          end
      end
  end.

(** Modelled from the spec: [unpack(packed_table)] for a data block that
    lives at address [base].  The metadata must hold exactly the declared
    columns. *)
Definition unpack (input : packed_columns) (base : Z) : result table_view :=
  match metadata input with
  | [] => logic_error "Truncated metadata."
  | count :: ws =>
      CUDF_EXPECTS (0 <=? count) "Invalid column count." ;;;
      r <- parse_columns (List.length ws) base (Z.to_nat count) ws ;;
      match r with
      | (columns, []) => Ok columns
      | (_, _ :: _) => logic_error "Trailing metadata."
      end
  end.

(** What [unpack] makes of a view with relative offsets. *)
Definition rebase_pointer (base : Z) (p : pointer) : pointer :=
  match p with
  | None => None
  | Some off => Some (base + off)
  end.

Fixpoint rebase_view (base : Z) (v : column_view) : column_view :=
  match v with
  | mk_column_view t n h m c o cs =>
      mk_column_view t n (rebase_pointer base h) (rebase_pointer base m) c o
        (List.map (rebase_view base) cs)
  end.

(** A view whose pointers are offsets into the data block: none of them
    is negative, in the view and in all of its children. *)
Definition relative_pointer (p : pointer) : Prop :=
  match p with
  | None => True
  | Some off => 0 <= off
  end.

#[local] Unset Elimination Schemes.
Inductive relative_view : column_view -> Prop :=
| relative_view_node (v : column_view) :
    relative_pointer (head v) ->
    relative_pointer (null_mask v) ->
    List.Forall relative_view (children v) ->
    relative_view v.
#[local] Set Elimination Schemes.

(** The number of views in a tree, and in a list of trees. *)
Fixpoint count_views (v : column_view) : nat :=
  match v with
  | mk_column_view _ _ _ _ _ _ cs =>
      S (List.fold_right (fun x acc => (count_views x + acc)%nat) O cs)
  end.

Definition count_all_views (cs : list column_view) : nat :=
  List.fold_right (fun x acc => (count_views x + acc)%nat) O cs.

(** Device memory [mem] holds the bytes [block] from address [addr] on. *)
Definition block_at (mem : device_memory) (addr : Z) (block : list Z) : bool :=
  List.forallb
    (fun k => mem (addr + Z.of_nat k) =? List.nth k block 0)
    (List.seq 0 (List.length block)).

(** A memory that is zero except for [block] stored at [addr]. *)
Definition store_block (addr : Z) (block : list Z) : device_memory :=
  fun a =>
    if (addr <=? a) && (a <? addr + Z.of_nat (List.length block))
    then List.nth (Z.to_nat (a - addr)) block 0
    else 0.

(** A table to run [pack] on: an INT16 column of three rows at offset 1
    with a bitmask, and a struct column with one INT8 member. *)
Definition sample_table : table_view :=
  [ mk_column_view (data_type_of_id INT16) 3 (Some 64) (Some 96) 1 1 [];
    mk_column_view (data_type_of_id STRUCT) 3 None None 0 0
      [ mk_column_view (data_type_of_id INT8) 3 (Some 128) None 0 0 [] ] ].

Definition sample_memory : device_memory := fun a => (7 * a + 3) mod 256.

End Pack.
Export Pack.

(** ** cpp/src/io/csv/reader_impl.hpp: reader::impl::selected_rows_offsets *)

Module CsvReader.

Local Open Scope result_scope.

(** [size_t] is an unsigned 64-bit integer. *)
Definition SIZE_MAX : Z := 2 ^ 64 - 1.
Definition wrap_size_t (z : Z) : Z := z mod 2 ^ 64.

(** [rmm::device_uvector<uint64_t>]: the device address of its storage and
    the elements it owns.  Addresses of [uint64_t] objects are counted in
    elements, as pointer arithmetic counts them. *)
Record device_uvector : Set := mk_device_uvector {
  uvector_data : Z;
  uvector_elements : list Z
}.

Definition uvector_size (v : device_uvector) : Z :=
  Z.of_nat (List.length (uvector_elements v)).

(** [device_span<uint64_t const>]: a pointer and an element count. *)
Record device_span : Set := mk_device_span {
  span_data : Z;
  span_size : Z
}.

(** The span over a whole vector. *)
Definition span_of_uvector (v : device_uvector) : device_span :=
  mk_device_span (uvector_data v) (uvector_size v).

(** [subspan(offset, count)] is the span [(data() + offset, count)], as
    for [std::span]. *)
Definition subspan (s : device_span) (offset count : Z) : device_span :=
  mk_device_span (span_data s + offset) count.

Record selected_rows_offsets : Set := mk_selected_rows_offsets {
  all : device_uvector;
  selected : device_span
}.

(** The two constructors: from a vector and a span, and the empty
    selection over a vector of no elements (stored at [storage]). *)
Definition make_selected_rows_offsets (data : device_uvector)
  (selected_span : device_span) : selected_rows_offsets :=
  mk_selected_rows_offsets data selected_span.

Definition empty_selected_rows_offsets (storage : Z) : selected_rows_offsets :=
  let all := mk_device_uvector storage [] in
  mk_selected_rows_offsets all (span_of_uvector all).

Definition size (s : selected_rows_offsets) : Z := span_size (selected s).
Definition data (s : selected_rows_offsets) : Z := span_data (selected s).

Definition shrink (s : selected_rows_offsets) (size : Z)
  : result selected_rows_offsets :=
  CUDF_EXPECTS (size <=? span_size (selected s)) "New size must be smaller" ;;;
  Ok (mk_selected_rows_offsets (all s) (subspan (selected s) 0 size)).

Definition erase_first_n (s : selected_rows_offsets) (n : Z)
  : result selected_rows_offsets :=
  CUDF_EXPECTS (n <=? span_size (selected s)) "Too many elements to remove" ;;;
  Ok (mk_selected_rows_offsets (all s)
        (subspan (selected s) n (wrap_size_t (span_size (selected s) - n)))).

(** The row offsets a selection shows: element [i] of the span is the
    element of [all] found [data() - all.data() + i] places in. *)
Definition selected_offsets (s : selected_rows_offsets) : list Z :=
  List.firstn (Z.to_nat (size s))
    (List.skipn (Z.to_nat (data s - uvector_data (all s)))
       (uvector_elements (all s))).

(** The selection is a window of the vector, whose length is a [size_t]. *)
Definition selection_invariant (s : selected_rows_offsets) : Prop :=
  uvector_data (all s) <= data s /\
  0 <= size s /\
  data s + size s <= uvector_data (all s) + uvector_size (all s) /\
  uvector_size (all s) <= SIZE_MAX.

(** Row offsets to run the operations on: six rows starting at 0, 10, ...,
    of which the selection shows the four from the second on. *)
Definition sample_rows : selected_rows_offsets :=
  make_selected_rows_offsets
    (mk_device_uvector 4000 [0; 10; 25; 31; 48; 60])
    (mk_device_span 4001 4).

End CsvReader.

(** * Properties *)

(** ** Results *)

Lemma succeeds_not_fails {A : Type} (r : result A) : succeeds r <-> ~ fails r.
Proof.
  destruct r as [a | msg]; split.
  - intros _ [m Hm]. discriminate.
  - intros _. now exists a.
  - intros [a Ha]. discriminate.
  - intros H. exfalso. apply H. now exists msg.
Qed.

Lemma fails_logic_error {A : Type} (msg : string) : fails (@logic_error A msg).
Proof. now exists msg. Qed.

Lemma not_fails_Ok {A : Type} (a : A) : ~ fails (Ok a).
Proof. intros [m Hm]. discriminate. Qed.

Lemma succeeds_Ok {A : Type} (a : A) : succeeds (Ok a).
Proof. now exists a. Qed.

Lemma not_succeeds_logic_error {A : Type} (msg : string) :
  ~ succeeds (@logic_error A msg).
Proof. intros [a Ha]. discriminate. Qed.

Create HintDb result_db.
#[local] Hint Resolve fails_logic_error not_fails_Ok succeeds_Ok
  not_succeeds_logic_error : result_db.

(** ** The trait registry *)

(** Every trait of a [data_type] is a function of its tag alone. *)
Ltac by_type_id t :=
  let i := fresh "i" in
  let sc := fresh "sc" in
  destruct t as [i sc]; destruct i.

Section TraitFacts.

(** C3 (as stated, fails): [bool] is an integral type, so BOOL8 is numeric
    as well as boolean, and two of the nine families hold of it. *)
Lemma bool8_is_numeric_and_boolean :
  is_numeric (data_type_of_id BOOL8) = true /\
  is_boolean (data_type_of_id BOOL8) = true /\
  count_true (trait_families (data_type_of_id BOOL8)) = 2%nat.
Proof. repeat split. Qed.

(** C3 (amended): for every type other than BOOL8 exactly one of the nine
    trait families numeric, timestamp, duration, fixed-point, boolean,
    dictionary, list, struct, string holds; of BOOL8 exactly two hold,
    numeric and boolean, and none of the other seven. *)
Theorem trait_families_classification (t : data_type) :
  if type_id_eqb (id t) BOOL8
  then trait_families t
       = [true; false; false; false; true; false; false; false; false]
  else count_true (trait_families t) = 1%nat.
Proof. by_type_id t; reflexivity. Qed.

(** C4: [is_chrono] is [is_timestamp] or [is_duration]; [is_nested] holds
    exactly of the list and struct types; a compound type is never
    fixed-width. *)
Theorem chrono_nested_compound (t : data_type) :
  (is_chrono t = true <-> is_timestamp t = true \/ is_duration t = true) /\
  is_chrono t = (is_timestamp t || is_duration t) /\
  (is_nested t = true <-> id t = LIST \/ id t = STRUCT) /\
  (is_compound t = true -> is_fixed_width t = false).
Proof.
  split; [| split; [| split]].
  - by_type_id t; cbn; split; intros H;
      first [ reflexivity | discriminate | (left; reflexivity)
            | (right; reflexivity) | (destruct H; discriminate) ].
  - by_type_id t; reflexivity.
  - by_type_id t; cbn; split; intros H;
      first [ reflexivity | discriminate | (left; reflexivity)
            | (right; reflexivity) | (destruct H; discriminate) ].
  - by_type_id t; cbn; intros H; first [ reflexivity | discriminate ].
Qed.

Lemma chrono_nested_compound_witness :
  is_compound (data_type_of_id STRING) = true /\
  is_fixed_width (data_type_of_id STRING) = false.
Proof.
  split; [reflexivity |].
  apply (chrono_nested_compound (data_type_of_id STRING)). reflexivity.
Defined.

Variable L : class_layout.

Lemma is_bit_castable_unfold (from to : data_type) :
  is_bit_castable L from to =
  negb (is_compound from) && negb (is_compound to)
  && is_trivially_copyable_v L (id_to_type (id from))
  && is_trivially_copyable_v L (id_to_type (id to))
  && (storage_size L (id_to_type (id from)) =? storage_size L (id_to_type (id to))).
Proof.
  unfold is_bit_castable, is_bit_castable_from_impl, is_bit_castable_to_impl,
    is_compound, is_compound_impl, type_dispatcher.
  destruct (is_compound_v (id_to_type (id from))); [reflexivity |].
  destruct (is_compound_v (id_to_type (id to))); [reflexivity |].
  destruct (is_trivially_copyable_v L (id_to_type (id from)));
    destruct (is_trivially_copyable_v L (id_to_type (id to))); reflexivity.
Qed.

Lemma non_compound_trivially_copyable (t : data_type) :
  is_compound t = false -> is_trivially_copyable_v L (id_to_type (id t)) = true.
Proof. by_type_id t; cbn; intros H; first [reflexivity | discriminate]. Qed.

(** C5: a non-compound type is bit-castable to itself, and two types whose
    storage representations differ in byte size are not bit-castable. *)
Theorem is_bit_castable_reflexive_and_sized (T U : data_type) :
  (is_compound T = false -> is_bit_castable L T T = true) /\
  (storage_size L (id_to_type (id T)) <> storage_size L (id_to_type (id U)) ->
   is_bit_castable L T U = false).
Proof.
  rewrite !is_bit_castable_unfold. split.
  - intros H. rewrite H, (non_compound_trivially_copyable T H), Z.eqb_refl.
    reflexivity.
  - intros H. apply Z.eqb_neq in H. rewrite H. apply andb_false_r.
Qed.

End TraitFacts.

Lemma is_bit_castable_witness :
  is_bit_castable sample_layout (data_type_of_id INT32) (data_type_of_id INT32) = true /\
  is_bit_castable sample_layout (data_type_of_id INT32) (data_type_of_id INT64) = false.
Proof.
  split.
  - apply (is_bit_castable_reflexive_and_sized sample_layout
             (data_type_of_id INT32) (data_type_of_id INT64)).
    reflexivity.
  - apply (is_bit_castable_reflexive_and_sized sample_layout
             (data_type_of_id INT32) (data_type_of_id INT64)).
    vm_compute. discriminate.
Defined.

(** ** Slicing *)

Section SliceFacts.

Lemma wrap_size_type_id (z : Z) : in_size_type z -> wrap_size_type z = z.
Proof.
  unfold in_size_type, INT32_MIN, INT32_MAX, wrap_size_type. intros H.
  rewrite Z.mod_small; lia.
Qed.

Lemma collect_children_skipn (input : column_view) (count index : nat) :
  (index + count = List.length (children input))%nat ->
  collect_children input index count = List.skipn index (children input).
Proof.
  revert index. induction count as [| count IH]; intros index H; cbn.
  - rewrite List.skipn_all2; [reflexivity | lia].
  - unfold child.
    destruct (Z.ltb_spec (Z.of_nat index) 0) as [Hneg | _]; [lia |].
    rewrite Nat2Z.id.
    destruct (List.nth_error (children input) index) as [c |] eqn:Hc.
    + rewrite IH by lia.
      clear IH H. revert index Hc.
      induction (children input) as [| x xs IHxs]; intros [| index] Hc;
        cbn in *; try discriminate.
      * now injection Hc as ->.
      * now apply IHxs.
    + apply List.nth_error_None in Hc. lia.
Qed.

Lemma collect_children_all (input : column_view) :
  collect_children input 0 (Z.to_nat (num_children input)) = children input.
Proof.
  unfold num_children. rewrite Nat2Z.id.
  now rewrite collect_children_skipn.
Qed.

(** [slice] as one conditional: the three range checks in order, then the
    constructor call. *)
Lemma slice_unfold (input : column_view) (b e : size_type) :
  slice input b e =
  if b <? 0 then logic_error "Invalid beginning of range."
  else if e <? b then logic_error "Invalid end of range."
  else if size input <? e then logic_error "Slice range out of bounds."
  else Ok (mk_column_view (type input) (wrap_size_type (e - b)) (head input)
             (null_mask input) UNKNOWN_NULL_COUNT
             (wrap_size_type (offset input + b)) (children input)).
Proof.
  unfold slice, CUDF_EXPECTS, bind. rewrite collect_children_all.
  rewrite !Z.geb_leb.
  destruct (Z.leb_spec 0 b), (Z.ltb_spec b 0); try lia; [| reflexivity].
  destruct (Z.leb_spec b e), (Z.ltb_spec e b); try lia; [| reflexivity].
  destruct (Z.leb_spec e (size input)), (Z.ltb_spec (size input) e); try lia;
    reflexivity.
Qed.

Lemma slice_in_range (input : column_view) (b e : size_type) :
  0 <= b -> b <= e -> e <= size input ->
  slice input b e =
  Ok (mk_column_view (type input) (wrap_size_type (e - b)) (head input)
        (null_mask input) UNKNOWN_NULL_COUNT
        (wrap_size_type (offset input + b)) (children input)).
Proof.
  intros Hb He Hs. rewrite slice_unfold.
  destruct (Z.ltb_spec b 0); [lia |].
  destruct (Z.ltb_spec e b); [lia |].
  destruct (Z.ltb_spec (size input) e); [lia | reflexivity].
Qed.

(** C1: on a range [0 <= begin <= end <= size] of a view, [slice] returns
    a view of [end - begin] rows at offset [offset + begin] with the type,
    head pointer, null-bitmask pointer and children of the input, whose row
    [i] is row [begin + i] of the input in value and validity. *)
Theorem slice_is_window (input : column_view) (b e : size_type) :
  view_invariant input ->
  0 <= b -> b <= e -> e <= size input ->
  exists s : column_view,
    slice input b e = Ok s /\
    size s = e - b /\
    offset s = offset input + b /\
    type s = type input /\
    head s = head input /\
    null_mask s = null_mask input /\
    children s = children input /\
    forall (mem : device_memory) (i : size_type),
      0 <= i < e - b ->
      element_at mem s i = element_at mem input (b + i) /\
      valid (element_at mem s i) = valid (element_at mem input (b + i)) /\
      value (element_at mem s i) = value (element_at mem input (b + i)).
Proof.
  intros (Hoff & Hsize & Hend) Hb He Hs.
  rewrite (slice_in_range input b e Hb He Hs).
  assert (Hw1 : wrap_size_type (e - b) = e - b).
  { apply wrap_size_type_id. unfold in_size_type, INT32_MIN, INT32_MAX in *. lia. }
  assert (Hw2 : wrap_size_type (offset input + b) = offset input + b).
  { apply wrap_size_type_id. unfold in_size_type, INT32_MIN, INT32_MAX in *. lia. }
  rewrite Hw1, Hw2.
  eexists. split; [reflexivity |]. cbn.
  repeat (split; [reflexivity |]).
  intros mem i Hi.
  assert (Heq : element_at mem
                  (mk_column_view (type input) (e - b) (head input)
                     (null_mask input) UNKNOWN_NULL_COUNT (offset input + b)
                     (children input)) i
                = element_at mem input (b + i)).
  { unfold element_at, is_valid, element_bytes. cbn.
    replace (offset input + b + i) with (offset input + (b + i)) by lia.
    reflexivity. }
  split; [exact Heq |].
  split; [exact (f_equal valid Heq) | exact (f_equal value Heq)].
Qed.

(** C6: on a view within the invariant of the data model, [slice] fails
    exactly when [begin < 0], [end < begin] or [end > size]; on every other
    pair it succeeds, and the size and the offset it hands to the view
    constructor are not negative. *)
Theorem slice_fails_iff (input : column_view) (b e : size_type) :
  view_invariant input ->
  (fails (slice input b e) <-> (b < 0 \/ e < b \/ e > size input)) /\
  (succeeds (slice input b e) <-> ~ (b < 0 \/ e < b \/ e > size input)) /\
  (forall s : column_view,
     slice input b e = Ok s -> 0 <= size s /\ 0 <= offset s).
Proof.
  intros (Ho & Hn & Hend). rewrite slice_unfold.
  destruct (Z.ltb_spec b 0);
    [| destruct (Z.ltb_spec e b); [| destruct (Z.ltb_spec (size input) e)]];
    (split; [| split]);
    try (split; intros Hx;
         solve [ auto with result_db | lia
               | exfalso; lia
               | exfalso; revert Hx; apply not_fails_Ok
               | exfalso; revert Hx; apply not_succeeds_logic_error ]);
    intros s Hx; try discriminate.
  injection Hx as <-. unfold INT32_MAX in Hend. cbn [size offset].
  rewrite !wrap_size_type_id
    by (unfold in_size_type, INT32_MIN, INT32_MAX; lia).
  lia.
Qed.

Lemma slice_fails_iff_witness :
  succeeds (slice sample_view 2 5) /\ fails (slice sample_view 3 9).
Proof.
  assert (Hinv : view_invariant sample_view)
    by (unfold view_invariant, INT32_MAX; cbn; lia).
  split.
  - apply (proj1 (proj2 (slice_fails_iff sample_view 2 5 Hinv))). cbn. lia.
  - apply (proj1 (slice_fails_iff sample_view 3 9 Hinv)). cbn. lia.
Defined.

(** C10: on every valid range of a view within the invariant of the data
    model, the view [slice] returns has the unknown-null-count sentinel as
    its null count, whatever null count the input view carries; the
    sentinel is no real count. *)
Theorem slice_forgets_null_count (input : column_view) (b e : size_type) :
  view_invariant input ->
  0 <= b -> b <= e -> e <= size input ->
  exists s : column_view,
    slice input b e = Ok s /\
    null_count s = UNKNOWN_NULL_COUNT /\
    UNKNOWN_NULL_COUNT < 0 /\
    0 <= size s /\ 0 <= offset s.
Proof.
  intros (Ho & Hn & Hend) Hb He Hs. rewrite (slice_in_range input b e Hb He Hs).
  eexists. split; [reflexivity |]. split; [reflexivity |].
  split; [reflexivity |].
  unfold INT32_MAX in Hend. cbn [size offset].
  rewrite !wrap_size_type_id
    by (unfold in_size_type, INT32_MIN, INT32_MAX; lia).
  lia.
Qed.

Lemma slice_is_window_witness :
  exists s : column_view,
    slice sample_view 2 5 = Ok s /\
    size s = 5 - 2 /\
    offset s = offset sample_view + 2 /\
    type s = type sample_view /\
    head s = head sample_view /\
    null_mask s = null_mask sample_view /\
    children s = children sample_view /\
    forall (mem : device_memory) (i : size_type),
      0 <= i < 5 - 2 ->
      element_at mem s i = element_at mem sample_view (2 + i) /\
      valid (element_at mem s i) = valid (element_at mem sample_view (2 + i)) /\
      value (element_at mem s i) = value (element_at mem sample_view (2 + i)).
Proof.
  apply (slice_is_window sample_view 2 5).
  - unfold view_invariant, INT32_MAX; cbn; lia.
  - lia.
  - lia.
  - cbn; lia.
Defined.

Lemma slice_forgets_null_count_witness :
  null_count sample_view = 2 /\
  exists s : column_view,
    slice sample_view 0 8 = Ok s /\
    null_count s = UNKNOWN_NULL_COUNT /\
    UNKNOWN_NULL_COUNT < 0 /\
    0 <= size s /\ 0 <= offset s.
Proof.
  split; [reflexivity |].
  apply (slice_forgets_null_count sample_view 0 8).
  - unfold view_invariant, INT32_MAX; cbn; lia.
  - lia.
  - lia.
  - cbn; lia.
Defined.

End SliceFacts.

(** ** Scalar factories *)

Section ScalarFactoryFacts.

Lemma scalar_construction_helper_fixed_width (t : data_type) :
  is_fixed_width t = true ->
  type_dispatcher t scalar_construction_helper = Ok (null_zero (id t)).
Proof. by_type_id t; cbn; intros H; first [reflexivity | discriminate]. Qed.

Lemma numeric_is_fixed_width (t : data_type) :
  is_numeric t = true -> is_fixed_width t = true.
Proof. by_type_id t; cbn; intros H; first [reflexivity | discriminate]. Qed.

Lemma timestamp_is_fixed_width (t : data_type) :
  is_timestamp t = true -> is_fixed_width t = true.
Proof. by_type_id t; cbn; intros H; first [reflexivity | discriminate]. Qed.

Lemma duration_is_fixed_width (t : data_type) :
  is_duration t = true -> is_fixed_width t = true.
Proof. by_type_id t; cbn; intros H; first [reflexivity | discriminate]. Qed.

Lemma make_numeric_scalar_unfold (t : data_type) :
  make_numeric_scalar t =
  if is_numeric t then Ok (null_zero (id t))
  else logic_error "Invalid, non-numeric type.".
Proof.
  unfold make_numeric_scalar, CUDF_EXPECTS, bind.
  destruct (is_numeric t) eqn:H; [| reflexivity].
  now rewrite scalar_construction_helper_fixed_width
    by now apply numeric_is_fixed_width.
Qed.

Lemma make_timestamp_scalar_unfold (t : data_type) :
  make_timestamp_scalar t =
  if is_timestamp t then Ok (null_zero (id t))
  else logic_error "Invalid, non-timestamp type.".
Proof.
  unfold make_timestamp_scalar, CUDF_EXPECTS, bind.
  destruct (is_timestamp t) eqn:H; [| reflexivity].
  now rewrite scalar_construction_helper_fixed_width
    by now apply timestamp_is_fixed_width.
Qed.

Lemma make_duration_scalar_unfold (t : data_type) :
  make_duration_scalar t =
  if is_duration t then Ok (null_zero (id t))
  else logic_error "Invalid, non-duration type.".
Proof.
  unfold make_duration_scalar, CUDF_EXPECTS, bind.
  destruct (is_duration t) eqn:H; [| reflexivity].
  now rewrite scalar_construction_helper_fixed_width
    by now apply duration_is_fixed_width.
Qed.

Lemma make_fixed_width_scalar_unfold (t : data_type) :
  make_fixed_width_scalar t =
  if is_fixed_width t then Ok (null_zero (id t))
  else logic_error "Invalid, non-fixed-width type.".
Proof.
  unfold make_fixed_width_scalar, CUDF_EXPECTS, bind.
  destruct (is_fixed_width t) eqn:H; [| reflexivity].
  now rewrite scalar_construction_helper_fixed_width.
Qed.

Lemma fails_if_false {A : Type} (c : bool) (a : A) (msg : string) :
  fails (if c then Ok a else logic_error msg) <-> c = false.
Proof.
  destruct c; split; intros H; auto with result_db; try discriminate.
  exfalso; revert H; apply not_fails_Ok.
Qed.

(** C7 (as stated, fails): asked for a DECIMAL32 scalar of scale -2,
    [make_fixed_width_scalar] returns one of scale 0, which is another
    type. *)
Lemma make_fixed_width_scalar_drops_scale :
  exists s : scalar,
    make_fixed_width_scalar (mk_data_type DECIMAL32 (-2)) = Ok s /\
    scalar_type s = mk_data_type DECIMAL32 0 /\
    scalar_type s <> mk_data_type DECIMAL32 (-2).
Proof.
  eexists. split; [reflexivity |]. split; [reflexivity |]. discriminate.
Qed.

(** C7 (amended): each of the four factories fails exactly when the type
    does not satisfy its trait; otherwise it returns the null scalar of
    value zero whose type has the tag of [t] and scale zero, which is [t]
    itself whenever the scale of [t] is zero. *)
Theorem make_scalar_factories (t : data_type) :
  (fails (make_numeric_scalar t) <-> is_numeric t = false) /\
  (fails (make_timestamp_scalar t) <-> is_timestamp t = false) /\
  (fails (make_duration_scalar t) <-> is_duration t = false) /\
  (fails (make_fixed_width_scalar t) <-> is_fixed_width t = false) /\
  (is_numeric t = true -> make_numeric_scalar t = Ok (null_zero (id t))) /\
  (is_timestamp t = true -> make_timestamp_scalar t = Ok (null_zero (id t))) /\
  (is_duration t = true -> make_duration_scalar t = Ok (null_zero (id t))) /\
  (is_fixed_width t = true ->
   make_fixed_width_scalar t = Ok (null_zero (id t))) /\
  scalar_type (null_zero (id t)) = mk_data_type (id t) 0 /\
  scalar_value (null_zero (id t)) = fixed_width_data 0 /\
  is_valid_flag (null_zero (id t)) = false /\
  (scale t = 0 -> scalar_type (null_zero (id t)) = t).
Proof.
  rewrite make_numeric_scalar_unfold, make_timestamp_scalar_unfold,
    make_duration_scalar_unfold, make_fixed_width_scalar_unfold.
  repeat (split; [apply fails_if_false |]).
  repeat (split; [now intros -> |]).
  repeat (split; [reflexivity |]).
  intros Hscale. destruct t as [i sc]. cbn in *. now subst sc.
Qed.

Lemma make_scalar_factories_witness :
  make_numeric_scalar (data_type_of_id INT32) = Ok (null_zero INT32) /\
  make_fixed_width_scalar (data_type_of_id DECIMAL64) = Ok (null_zero DECIMAL64) /\
  scalar_type (null_zero INT32) = data_type_of_id INT32.
Proof.
  split; [| split].
  - apply (make_scalar_factories (data_type_of_id INT32)). reflexivity.
  - apply (make_scalar_factories (data_type_of_id DECIMAL64)). reflexivity.
  - apply (make_scalar_factories (data_type_of_id INT32)). reflexivity.
Defined.

(** C8: [make_default_constructed_scalar] fails for the dictionary, list
    and struct types and succeeds for every other type; for the string
    type it returns the null scalar holding the empty string. *)
Theorem make_default_constructed_scalar_total (t : data_type) :
  (fails (make_default_constructed_scalar t) <->
   id t = DICTIONARY32 \/ id t = LIST \/ id t = STRUCT) /\
  (succeeds (make_default_constructed_scalar t) <->
   ~ (id t = DICTIONARY32 \/ id t = LIST \/ id t = STRUCT)) /\
  (id t = STRING ->
   make_default_constructed_scalar t
   = Ok (mk_scalar (data_type_of_id STRING) (string_data EmptyString) false)).
Proof.
  split; [| split].
  - by_type_id t; cbn; split; intros H;
      solve [ auto with result_db
            | exfalso; revert H; apply not_fails_Ok
            | destruct H as [H | [H | H]]; discriminate ].
  - by_type_id t; cbn; split; intros H;
      solve [ auto with result_db
            | exfalso; revert H; apply not_succeeds_logic_error
            | intros [H' | [H' | H']]; discriminate
            | exfalso; apply H; auto ].
  - by_type_id t; cbn; intros H; first [reflexivity | discriminate].
Qed.

Lemma make_default_constructed_scalar_witness :
  make_default_constructed_scalar (data_type_of_id STRING)
  = Ok (mk_scalar (data_type_of_id STRING) (string_data EmptyString) false).
Proof.
  apply (make_default_constructed_scalar_total (data_type_of_id STRING)).
  reflexivity.
Defined.

Lemma empty_like_shape (c : column_view) :
  size (empty_like c) = 0 /\ type (empty_like c) = type c /\
  children (empty_like c) = List.map empty_like (children c).
Proof. destruct c; cbn; repeat split. Qed.

Lemma get_element_unfold (mem : device_memory) (c : column_view) (i : size_type) :
  get_element mem c i =
  if (0 <=? i) && (i <? size c)
  then Ok (mk_scalar (type c) (row_data (value (element_at mem c i)))
             (valid (element_at mem c i)))
  else logic_error "Index out of bounds".
Proof.
  unfold get_element, CUDF_EXPECTS, bind. rewrite Z.geb_leb.
  destruct ((0 <=? i) && (i <? size c)); reflexivity.
Qed.

(** C9 (as stated, fails): for a dictionary column no scalar is returned;
    the default branch ends in the failure of
    [make_default_constructed_scalar]. *)
Lemma make_empty_scalar_like_dictionary :
  make_empty_scalar_like (fun _ => 0) sample_dictionary_view
  = logic_error "dictionary type not supported".
Proof. reflexivity. Qed.

(** C9 (amended): [make_empty_scalar_like] fails for a dictionary column
    and for a struct column without rows.  Otherwise it returns a null
    scalar with the type tag of the column: for a list column the list
    scalar over [empty_like] of the column; for a struct column with rows
    the element of row 0; for every other type the result of
    [make_default_constructed_scalar] on the column's type. *)
Theorem make_empty_scalar_like_cases (mem : device_memory) (c : column_view) :
  (id (type c) = LIST ->
   make_empty_scalar_like mem c
   = Ok (mk_scalar (data_type_of_id LIST) (list_data (empty_like c)) false)) /\
  (id (type c) = STRUCT ->
   make_empty_scalar_like mem c
   = bind (get_element mem c 0) (fun s => Ok (set_valid_async s false))) /\
  (id (type c) = STRUCT -> 0 < size c ->
   make_empty_scalar_like mem c
   = Ok (mk_scalar (type c) (row_data (value (element_at mem c 0))) false)) /\
  (id (type c) <> LIST -> id (type c) <> STRUCT ->
   make_empty_scalar_like mem c = make_default_constructed_scalar (type c)) /\
  (fails (make_empty_scalar_like mem c) <->
   id (type c) = DICTIONARY32 \/ (id (type c) = STRUCT /\ size c <= 0)) /\
  (forall s : scalar,
     make_empty_scalar_like mem c = Ok s ->
     id (scalar_type s) = id (type c) /\ is_valid_flag s = false).
Proof.
  assert (Hstruct : id (type c) = STRUCT ->
            make_empty_scalar_like mem c =
            if 0 <? size c
            then Ok (mk_scalar (type c) (row_data (value (element_at mem c 0))) false)
            else logic_error "Index out of bounds").
  { intros H. unfold make_empty_scalar_like. rewrite H, get_element_unfold.
    cbn. destruct (0 <? size c); reflexivity. }
  assert (Hother : id (type c) <> LIST -> id (type c) <> STRUCT ->
            make_empty_scalar_like mem c = make_default_constructed_scalar (type c)).
  { intros H1 H2. unfold make_empty_scalar_like.
    destruct (id (type c)); try reflexivity; contradiction. }
  split; [| split; [| split; [| split; [| split]]]].
  - intros H. unfold make_empty_scalar_like. now rewrite H.
  - intros H. unfold make_empty_scalar_like. now rewrite H.
  - intros H Hs. rewrite (Hstruct H).
    destruct (Z.ltb_spec 0 (size c)); [reflexivity | lia].
  - exact Hother.
  - destruct (type_id_eq_dec (id (type c)) LIST) as [Hl | Hl].
    { unfold make_empty_scalar_like. rewrite Hl. split.
      - intros H. exfalso; revert H; apply not_fails_Ok.
      - intros [H | [H _]]; discriminate. }
    destruct (type_id_eq_dec (id (type c)) STRUCT) as [Hs | Hs].
    { rewrite (Hstruct Hs), Hs. destruct (Z.ltb_spec 0 (size c)); split.
      - intros H'. exfalso; revert H'; apply not_fails_Ok.
      - intros [H' | [_ H']]; [discriminate | lia].
      - intros _. right. split; [reflexivity | lia].
      - intros _. auto with result_db. }
    rewrite (Hother Hl Hs). destruct (type c) as [i sc]; cbn in *.
    destruct i; cbn; split; intros H;
      solve [ auto with result_db | contradiction
            | exfalso; revert H; apply not_fails_Ok
            | destruct H as [H | [H _]]; discriminate ].
  - intros s Hs.
    destruct (type_id_eq_dec (id (type c)) LIST) as [Hl | Hl].
    { unfold make_empty_scalar_like in Hs. rewrite Hl in *.
      injection Hs as <-. split; reflexivity. }
    destruct (type_id_eq_dec (id (type c)) STRUCT) as [Hst | Hst].
    { rewrite (Hstruct Hst) in Hs. destruct (0 <? size c); [| discriminate].
      injection Hs as <-. split; reflexivity. }
    rewrite (Hother Hl Hst) in Hs. destruct (type c) as [i sc]; cbn in *.
    destruct i; cbn in Hs; try discriminate; try contradiction;
      injection Hs as <-; split; reflexivity.
Qed.

Lemma make_empty_scalar_like_witness :
  make_empty_scalar_like (fun _ => 0) sample_struct_view
  = Ok (mk_scalar (type sample_struct_view)
          (row_data (value (element_at (fun _ => 0) sample_struct_view 0)))
          false).
Proof.
  apply (make_empty_scalar_like_cases (fun _ => 0) sample_struct_view).
  - reflexivity.
  - cbn; lia.
Defined.

End ScalarFactoryFacts.

(** ** Pack and unpack *)

Section PackFacts.

Lemma column_view_forall_ind (P : column_view -> Prop) :
  (forall t n h m c o cs,
     List.Forall P cs -> P (mk_column_view t n h m c o cs)) ->
  forall v, P v.
Proof.
  intros step. fix IH 1. intros [t n h m c o cs]. apply step.
  induction cs as [| x xs IHxs]; constructor; [apply IH | exact IHxs].
Qed.

Lemma type_id_of_code_code (i : type_id) : type_id_of_code (type_id_code i) = Some i.
Proof. destruct i; reflexivity. Qed.

Lemma serialize_column_length (v : column_view) :
  (count_views v <= List.length (serialize_column v))%nat.
Proof.
  induction v as [t n h m c o cs IH] using column_view_forall_ind.
  cbn [serialize_column count_views]. rewrite List.length_app. cbn [List.length].
  enough (List.fold_right (fun x acc => (count_views x + acc)%nat) O cs
          <= List.length (List.flat_map serialize_column cs))%nat by lia.
  induction IH as [| x xs Hx _ IHxs]; cbn; [lia |].
  rewrite List.length_app. lia.
Qed.

Lemma serialize_columns_length (cs : list column_view) :
  (count_all_views cs <= List.length (List.flat_map serialize_column cs))%nat.
Proof.
  induction cs as [| x xs IH]; cbn; [lia |].
  rewrite List.length_app. pose proof (serialize_column_length x).
  unfold count_all_views in IH. lia.
Qed.

Lemma rebase_offset_field (base : Z) (p : pointer) :
  relative_pointer p -> rebase base (offset_field p) = rebase_pointer base p.
Proof.
  destruct p as [off |]; cbn; [| reflexivity].
  intros H. unfold rebase. destruct (Z.ltb_spec off 0); [lia | reflexivity].
Qed.

(** Reading back what [serialize_column] wrote gives the views, rebased. *)
Lemma parse_serialize_columns (base : Z) (fuel : nat) :
  forall (cs : list column_view) (rest : list Z),
    List.Forall relative_view cs ->
    (count_all_views cs <= fuel)%nat ->
    parse_columns fuel base (List.length cs)
      (List.flat_map serialize_column cs ++ rest)
    = Ok (List.map (rebase_view base) cs, rest).
Proof.
  induction fuel as [| fuel IH]; intros cs rest Hrel Hfuel.
  - destruct cs as [| [t n h m c o kids] xs]; [reflexivity |].
    cbn in Hfuel. lia.
  - destruct cs as [| [t n h m c o kids] xs]; [reflexivity |].
    inversion Hrel as [| ? ? Hv Hxs]; subst.
    inversion Hv as [? Hh Hm Hkids]; subst. cbn in Hh, Hm, Hkids.
    cbn in Hfuel.
    cbn [List.length List.flat_map serialize_column].
    rewrite <- !List.app_assoc. cbn [List.app parse_columns].
    rewrite type_id_of_code_code.
    replace (0 <=? Z.of_nat (List.length kids)) with true
      by (symmetry; apply Z.leb_le; lia).
    cbn [CUDF_EXPECTS bind]. rewrite Nat2Z.id.
    rewrite (IH kids _ Hkids) by (unfold count_all_views; lia).
    cbn [bind]. rewrite (IH xs rest Hxs) by (unfold count_all_views in *; lia).
    cbn [bind List.map rebase_view].
    rewrite !rebase_offset_field by assumption.
    destruct t as [i sc]. reflexivity.
Qed.

(** The children of a column are laid out like the columns of a table. *)
Lemma layout_column_unfold (mem : device_memory) (pos : Z)
  (t : data_type) (n : size_type) (h m : pointer) (c o : size_type)
  (cs : list column_view) :
  layout_column mem pos (mk_column_view t n h m c o cs) =
  let v := mk_column_view t n h m c o cs in
  let pos_mask := pos + Z.of_nat (List.length (value_bytes mem v)) in
  let pos_children := pos_mask + Z.of_nat (List.length (mask_bytes mem v)) in
  let (cs', bytes) := layout_columns mem pos_children cs in
  (mk_column_view t n (place h pos) (place m pos_mask) c o cs',
   value_bytes mem v ++ mask_bytes mem v ++ bytes).
Proof.
  cbn [layout_column]. cbv zeta.
  match goal with
  | |- (let (_, _) := ?F ?p cs in _) = _ =>
      assert (HF : forall l q, F q l = layout_columns mem q l)
  end.
  { induction l as [| x xs IHxs]; intros q; [reflexivity |].
    cbn [layout_columns]. destruct (layout_column mem q x) as [x' bx].
    rewrite IHxs. reflexivity. }
  rewrite HF. reflexivity.
Qed.

(** [block_at] as a statement about every byte of the block. *)
Lemma block_at_spec (mem : device_memory) (addr : Z) (block : list Z) :
  block_at mem addr block = true <->
  forall k : nat, (k < List.length block)%nat ->
                  mem (addr + Z.of_nat k) = List.nth k block 0.
Proof.
  unfold block_at. rewrite List.forallb_forall. split.
  - intros H k Hk. apply Z.eqb_eq, H, List.in_seq. lia.
  - intros H k Hk. apply Z.eqb_eq, H. apply List.in_seq in Hk. lia.
Qed.

Lemma block_at_app (mem : device_memory) (addr : Z) (xs ys : list Z) :
  block_at mem addr (xs ++ ys) = true ->
  block_at mem addr xs = true /\
  block_at mem (addr + Z.of_nat (List.length xs)) ys = true.
Proof.
  rewrite !block_at_spec. intros H. split.
  - intros k Hk. rewrite H by (rewrite List.length_app; lia).
    now rewrite List.app_nth1.
  - intros k Hk.
    replace (addr + Z.of_nat (List.length xs) + Z.of_nat k)
      with (addr + Z.of_nat (List.length xs + k)) by lia.
    rewrite H by (rewrite List.length_app; lia).
    rewrite List.app_nth2 by lia. f_equal. lia.
Qed.

Lemma read_bytes_length (mem : device_memory) (addr n : Z) :
  List.length (read_bytes mem addr n) = Z.to_nat n.
Proof. unfold read_bytes. now rewrite List.length_map, List.length_seq. Qed.

Lemma read_bytes_nth (mem : device_memory) (addr n : Z) (k : nat) :
  (k < Z.to_nat n)%nat ->
  List.nth k (read_bytes mem addr n) 0 = mem (addr + Z.of_nat k).
Proof.
  intros Hk. unfold read_bytes.
  set (f := fun j : nat => mem (addr + Z.of_nat j)).
  rewrite (List.nth_indep _ 0 (f O))
    by (rewrite List.length_map, List.length_seq; lia).
  rewrite List.map_nth, List.seq_nth by lia. reflexivity.
Qed.

(** A copy of the first [len] bytes behind [src], found at [dst], reads
    like the original on every window inside it. *)
Lemma read_bytes_copied (mem mem' : device_memory) (src dst len : Z)
  (start n : Z) :
  block_at mem' dst (read_bytes mem src len) = true ->
  0 <= start -> start + n <= len ->
  read_bytes mem' (dst + start) n = read_bytes mem (src + start) n.
Proof.
  rewrite block_at_spec, read_bytes_length. intros H Hs Hn.
  unfold read_bytes. apply List.map_ext_in. intros k Hk.
  apply List.in_seq in Hk.
  replace (dst + start + Z.of_nat k) with (dst + Z.of_nat (Z.to_nat start + k)) by lia.
  rewrite H by lia. rewrite read_bytes_nth by lia. f_equal. lia.
Qed.

Lemma bit_is_set_copied (mem mem' : device_memory) (src dst len j : Z) :
  block_at mem' dst (read_bytes mem src len) = true ->
  0 <= j -> j / 8 < len ->
  bit_is_set mem' dst j = bit_is_set mem src j.
Proof.
  rewrite block_at_spec, read_bytes_length. intros H Hj Hlen.
  unfold bit_is_set. f_equal.
  assert (0 <= j / 8) by (apply Z.div_pos; lia).
  replace (dst + j / 8) with (dst + Z.of_nat (Z.to_nat (j / 8))) by lia.
  rewrite H by lia. rewrite read_bytes_nth by lia. f_equal. lia.
Qed.

Lemma element_size_nonneg (t : data_type) : 0 <= element_size t.
Proof. by_type_id t; cbn; lia. Qed.

Lemma row_indices_range (n i : size_type) :
  List.In i (row_indices n) <-> 0 <= i < n.
Proof.
  unfold row_indices. rewrite List.in_map_iff. split.
  - intros (k & <- & Hk). apply List.in_seq in Hk. lia.
  - intros Hi. exists (Z.to_nat i). split; [lia |]. apply List.in_seq. lia.
Qed.

Lemma view_data_unfold (mem : device_memory) (v : column_view) :
  view_data mem v =
  mk_column_data (type v)
    (List.map (fun i => (is_valid mem v i, element_bytes mem v i))
       (row_indices (size v)))
    (List.map (view_data mem) (children v)).
Proof. destruct v; reflexivity. Qed.

(** A row of the relocated view reads the copy of the row it came from. *)
Lemma row_copied (mem mem' : device_memory) (base pos : Z)
  (t : data_type) (n : size_type) (h m : pointer) (c o : size_type)
  (cs cs' : list column_view) (i : size_type) :
  let v := mk_column_view t n h m c o cs in
  let pos_mask := pos + Z.of_nat (List.length (value_bytes mem v)) in
  let v' := mk_column_view t n (rebase_pointer base (place h pos))
              (rebase_pointer base (place m pos_mask)) c o cs' in
  0 <= o -> 0 <= i < n ->
  block_at mem' (base + pos) (value_bytes mem v) = true ->
  block_at mem' (base + pos_mask) (mask_bytes mem v) = true ->
  is_valid mem' v' i = is_valid mem v i /\
  element_bytes mem' v' i = element_bytes mem v i.
Proof.
  intros v pos_mask v' Ho Hi Hdata Hmask. split.
  - unfold is_valid, mask_bytes in *. cbn in *.
    destruct m as [m |]; cbn; [| reflexivity].
    apply (bit_is_set_copied mem mem' m _ _ _ Hmask); [lia |].
    apply Z.le_lt_trans with ((o + n - 1) / 8).
    + apply Z.div_le_mono; lia.
    + replace (o + n + 7) with (o + n - 1 + 1 * 8) by lia.
      rewrite Z.div_add by lia. lia.
  - unfold element_bytes, value_bytes in *. cbn in *.
    destruct h as [h |]; cbn; [| reflexivity].
    pose proof (element_size_nonneg t) as Hw.
    apply (read_bytes_copied mem mem' h _ _ _ _ Hdata); nia.
Qed.

(** What the copy pass returns for the columns [cs] placed at [pos]: views
    with relative pointers and the shape of the originals which, rebased
    onto any address that holds the copied bytes, show the same data. *)
Lemma layout_columns_sound (mem : device_memory) (cs : list column_view) :
  List.Forall
    (fun v => tree_invariant v -> forall pos, 0 <= pos ->
       relative_view (fst (layout_column mem pos v)) /\
       type (fst (layout_column mem pos v)) = type v /\
       size (fst (layout_column mem pos v)) = size v /\
       offset (fst (layout_column mem pos v)) = offset v /\
       forall mem' base,
         block_at mem' (base + pos) (snd (layout_column mem pos v)) = true ->
         view_data mem' (rebase_view base (fst (layout_column mem pos v)))
         = view_data mem v) cs ->
  List.Forall tree_invariant cs ->
  forall pos, 0 <= pos ->
    List.Forall relative_view (fst (layout_columns mem pos cs)) /\
    List.map type (fst (layout_columns mem pos cs)) = List.map type cs /\
    List.map size (fst (layout_columns mem pos cs)) = List.map size cs /\
    List.map offset (fst (layout_columns mem pos cs)) = List.map offset cs /\
    forall mem' base,
      block_at mem' (base + pos) (snd (layout_columns mem pos cs)) = true ->
      List.map (view_data mem')
        (List.map (rebase_view base) (fst (layout_columns mem pos cs)))
      = List.map (view_data mem) cs.
Proof.
  intros Hall. induction Hall as [| x xs Hx _ IH]; intros Hinv pos Hpos.
  - cbn. repeat split; auto.
  - inversion Hinv as [| ? ? Hix Hixs]; subst.
    cbn [layout_columns].
    specialize (Hx Hix pos Hpos).
    destruct (layout_column mem pos x) as [x' bx]. cbn [fst snd] in Hx.
    assert (Hpos' : 0 <= pos + Z.of_nat (List.length bx)) by lia.
    specialize (IH Hixs _ Hpos').
    destruct (layout_columns mem (pos + Z.of_nat (List.length bx)) xs)
      as [xs' bxs].
    cbn [fst snd] in IH |- *.
    destruct Hx as (Hr & Ht & Hs & Ho & Hd).
    destruct IH as (Hrs & Hts & Hss & Hos & Hds).
    split; [now constructor |]. cbn [List.map].
    split; [now rewrite Ht, Hts |].
    split; [now rewrite Hs, Hss |].
    split; [now rewrite Ho, Hos |].
    intros mem' base Hblock. apply block_at_app in Hblock as [Hb1 Hb2].
    rewrite (Hd mem' base Hb1). f_equal. apply Hds.
    now rewrite Z.add_assoc.
Qed.

Lemma layout_column_sound (mem : device_memory) (v : column_view) :
  tree_invariant v -> forall pos, 0 <= pos ->
    relative_view (fst (layout_column mem pos v)) /\
    type (fst (layout_column mem pos v)) = type v /\
    size (fst (layout_column mem pos v)) = size v /\
    offset (fst (layout_column mem pos v)) = offset v /\
    forall mem' base,
      block_at mem' (base + pos) (snd (layout_column mem pos v)) = true ->
      view_data mem' (rebase_view base (fst (layout_column mem pos v)))
      = view_data mem v.
Proof.
  induction v as [t n h m c o cs IH] using column_view_forall_ind.
  intros Hinv pos Hpos. rewrite layout_column_unfold. cbv zeta.
  inversion Hinv as [? (Ho & Hn & _) Hkids]; subst. cbn in Ho, Hn, Hkids.
  set (v := mk_column_view t n h m c o cs) in *.
  set (pos_mask := pos + Z.of_nat (List.length (value_bytes mem v))).
  set (pos_children := pos_mask + Z.of_nat (List.length (mask_bytes mem v))).
  assert (Hpm : 0 <= pos_mask) by (unfold pos_mask; lia).
  assert (Hpc : 0 <= pos_children) by (unfold pos_children; lia).
  destruct (layout_columns_sound mem cs IH Hkids pos_children Hpc)
    as (Hrs & _ & _ & _ & Hds).
  destruct (layout_columns mem pos_children cs) as [cs' bytes].
  cbn [fst snd] in *.
  split.
  { constructor; cbn; [destruct h | destruct m |]; cbn; auto. }
  repeat (split; [reflexivity |]).
  intros mem' base Hblock.
  apply block_at_app in Hblock as [Hdata Hblock].
  apply block_at_app in Hblock as [Hmask Hbytes].
  cbn [rebase_view]. rewrite !view_data_unfold. cbn [type size children].
  f_equal.
  - apply List.map_ext_in. intros i Hi. apply row_indices_range in Hi.
    destruct (row_copied mem mem' base pos t n h m c o cs
                (List.map (rebase_view base) cs') i Ho Hi) as [Hv Hb].
    + exact Hdata.
    + fold v. rewrite Z.add_assoc. exact Hmask.
    + fold v in Hv, Hb. fold pos_mask in Hv, Hb. now rewrite Hv, Hb.
  - apply Hds. unfold pos_children, pos_mask.
    now rewrite !Z.add_assoc.
Qed.

Lemma rebase_view_shape (base : Z) (v : column_view) :
  type (rebase_view base v) = type v /\
  size (rebase_view base v) = size v /\
  offset (rebase_view base v) = offset v.
Proof. destruct v; repeat split. Qed.

(** Two views that show the same data at the same offset have the same
    rows. *)
Lemma element_at_of_view_data (mem mem' : device_memory) (v v' : column_view) :
  view_data mem' v' = view_data mem v ->
  size v' = size v -> offset v' = offset v ->
  forall i, 0 <= i < size v -> element_at mem' v' i = element_at mem v i.
Proof.
  rewrite !view_data_unfold. intros Hdata Hsize Hoff i Hi.
  injection Hdata as Htype Hrows Hkids. rewrite Hsize in Hrows.
  pose proof (proj1 List.map_ext_in_iff Hrows i
                (proj2 (row_indices_range _ _) Hi)) as Hrow.
  cbn beta in Hrow.
  injection Hrow as Hv Hb.
  unfold element_at. now rewrite Hv, Hb, Htype, Hoff, Hkids.
Qed.

(** C2: for a table of valid views, [unpack] of [pack] of the table, with
    the data block placed at any address, returns a table with the same
    number of columns and rows, the same type for every column, and the
    same value and validity in every row of every column. *)
Theorem unpack_pack_roundtrip (mem mem' : device_memory) (input : table_view)
  (base : Z) :
  List.Forall tree_invariant input ->
  block_at mem' base (gpu_data (pack mem input)) = true ->
  exists output : table_view,
    unpack (pack mem input) base = Ok output /\
    num_columns output = num_columns input /\
    num_rows output = num_rows input /\
    List.map type output = List.map type input /\
    forall (j : nat) (c c' : column_view),
      List.nth_error input j = Some c ->
      List.nth_error output j = Some c' ->
      type c' = type c /\ size c' = size c /\
      forall i : size_type,
        0 <= i < size c -> element_at mem' c' i = element_at mem c i.
Proof.
  intros Hinv Hblock.
  assert (Hall : List.Forall
            (fun v => tree_invariant v -> forall pos, 0 <= pos ->
               relative_view (fst (layout_column mem pos v)) /\
               type (fst (layout_column mem pos v)) = type v /\
               size (fst (layout_column mem pos v)) = size v /\
               offset (fst (layout_column mem pos v)) = offset v /\
               forall mem' base,
                 block_at mem' (base + pos) (snd (layout_column mem pos v)) = true ->
                 view_data mem' (rebase_view base (fst (layout_column mem pos v)))
                 = view_data mem v) input).
  { apply List.Forall_forall. intros v _. apply layout_column_sound. }
  destruct (layout_columns_sound mem input Hall Hinv 0 (Z.le_refl 0))
    as (Hrel & Htypes & Hsizes & Hoffs & Hdata).
  unfold pack in *.
  destruct (layout_columns mem 0 input) as [rel bytes]. cbn [fst snd] in *.
  cbn [gpu_data] in Hblock.
  specialize (Hdata mem' base). rewrite Z.add_0_r in Hdata.
  specialize (Hdata Hblock).
  assert (Hlen : List.length rel = List.length input).
  { rewrite <- (List.length_map type rel), Htypes. apply List.length_map. }
  exists (List.map (rebase_view base) rel).
  split.
  { unfold unpack. cbn [metadata].
    replace (0 <=? num_columns input) with true
      by (symmetry; apply Z.leb_le; unfold num_columns; lia).
    cbn [CUDF_EXPECTS bind]. unfold num_columns. rewrite Nat2Z.id, <- Hlen.
    pose proof (parse_serialize_columns base
                  (List.length (List.flat_map serialize_column rel)) rel []
                  Hrel (serialize_columns_length rel)) as Hparse.
    rewrite List.app_nil_r in Hparse. rewrite Hparse. reflexivity. }
  assert (Htypes' : List.map type (List.map (rebase_view base) rel)
                    = List.map type input).
  { rewrite List.map_map, <- Htypes. apply List.map_ext.
    intros v. apply rebase_view_shape. }
  assert (Hsizes' : List.map size (List.map (rebase_view base) rel)
                    = List.map size input).
  { rewrite List.map_map, <- Hsizes. apply List.map_ext.
    intros v. apply rebase_view_shape. }
  assert (Hoffs' : List.map offset (List.map (rebase_view base) rel)
                   = List.map offset input).
  { rewrite List.map_map, <- Hoffs. apply List.map_ext.
    intros v. apply rebase_view_shape. }
  split; [unfold num_columns; now rewrite List.length_map, Hlen |].
  split.
  { destruct input as [| c cs], (List.map (rebase_view base) rel) as [| c' cs'];
      cbn in *; congruence. }
  split; [exact Htypes' |].
  intros j c c' Hc Hc'.
  assert (Ht : type c' = type c).
  { apply (List.map_nth_error type) in Hc, Hc'. congruence. }
  assert (Hs : size c' = size c).
  { apply (List.map_nth_error size) in Hc, Hc'. congruence. }
  assert (Ho : offset c' = offset c).
  { apply (List.map_nth_error offset) in Hc, Hc'. congruence. }
  assert (Hd : view_data mem' c' = view_data mem c).
  { apply (List.map_nth_error (view_data mem)) in Hc.
    apply (List.map_nth_error (view_data mem')) in Hc'. congruence. }
  split; [exact Ht |]. split; [exact Hs |].
  now apply element_at_of_view_data.
Qed.

Lemma unpack_pack_roundtrip_witness :
  exists output : table_view,
    unpack (pack sample_memory sample_table) 5000 = Ok output /\
    num_columns output = num_columns sample_table /\
    num_rows output = num_rows sample_table /\
    List.map type output = List.map type sample_table /\
    forall (j : nat) (c c' : column_view),
      List.nth_error sample_table j = Some c ->
      List.nth_error output j = Some c' ->
      type c' = type c /\ size c' = size c /\
      forall i : size_type,
        0 <= i < size c ->
        element_at (store_block 5000 (gpu_data (pack sample_memory sample_table)))
          c' i
        = element_at sample_memory c i.
Proof.
  apply (unpack_pack_roundtrip sample_memory
           (store_block 5000 (gpu_data (pack sample_memory sample_table)))
           sample_table 5000).
  - repeat constructor; cbn; unfold INT32_MAX; lia.
  - vm_compute. reflexivity.
Defined.

End PackFacts.

(** ** Selected row offsets of the CSV reader *)

Section SelectedRowsFacts.

Import CsvReader.

Lemma wrap_size_t_id (z : Z) : 0 <= z <= SIZE_MAX -> wrap_size_t z = z.
Proof.
  unfold wrap_size_t, SIZE_MAX. intros H. apply Z.mod_small. lia.
Qed.

Lemma shrink_unfold (s : selected_rows_offsets) (k : Z) :
  shrink s k =
  if k <=? CsvReader.size s
  then Ok (mk_selected_rows_offsets (all s)
             (mk_device_span (CsvReader.data s + 0) k))
  else logic_error "New size must be smaller".
Proof.
  unfold shrink, CUDF_EXPECTS, bind, CsvReader.size, CsvReader.data, subspan.
  destruct (k <=? span_size (selected s)); reflexivity.
Qed.

Lemma erase_first_n_unfold (s : selected_rows_offsets) (n : Z) :
  erase_first_n s n =
  if n <=? CsvReader.size s
  then Ok (mk_selected_rows_offsets (all s)
             (mk_device_span (CsvReader.data s + n)
                (wrap_size_t (CsvReader.size s - n))))
  else logic_error "Too many elements to remove".
Proof.
  unfold erase_first_n, CUDF_EXPECTS, bind, CsvReader.size, CsvReader.data,
    subspan.
  destruct (n <=? span_size (selected s)); reflexivity.
Qed.

(** X1: [shrink] and [erase_first_n] fail exactly when asked for more
    elements than are selected, each with its own message. *)
Theorem selected_rows_failures (s : selected_rows_offsets) (k : Z) :
  (fails (shrink s k) <-> CsvReader.size s < k) /\
  (fails (erase_first_n s k) <-> CsvReader.size s < k) /\
  (forall msg, shrink s k = logic_error msg ->
               msg = "New size must be smaller"%string) /\
  (forall msg, erase_first_n s k = logic_error msg ->
               msg = "Too many elements to remove"%string).
Proof.
  rewrite shrink_unfold, erase_first_n_unfold.
  destruct (Z.leb_spec k (CsvReader.size s)); repeat split;
    try (intros Hx; solve [ lia | exfalso; revert Hx; apply not_fails_Ok
                          | auto with result_db ]);
    intros msg Hx; congruence.
Qed.

(** X2: [shrink] to [k] selected-or-fewer elements keeps the vector and
    the start of the selection and shows the first [k] row offsets. *)
Theorem shrink_keeps_prefix (s : selected_rows_offsets) (k : Z) :
  k <= CsvReader.size s ->
  exists s' : selected_rows_offsets,
    shrink s k = Ok s' /\
    all s' = all s /\
    CsvReader.data s' = CsvReader.data s /\
    CsvReader.size s' = k /\
    selected_offsets s' = List.firstn (Z.to_nat k) (selected_offsets s).
Proof.
  intros Hk. rewrite shrink_unfold.
  destruct (Z.leb_spec k (CsvReader.size s)); [| lia].
  eexists. split; [reflexivity |].
  unfold selected_offsets, CsvReader.size, CsvReader.data. cbn.
  rewrite Z.add_0_r. repeat (split; [reflexivity |]).
  rewrite List.firstn_firstn. f_equal.
  unfold CsvReader.size in *. lia.
Qed.

Lemma shrink_keeps_prefix_witness :
  exists s' : selected_rows_offsets,
    shrink sample_rows 2 = Ok s' /\
    all s' = all sample_rows /\
    CsvReader.data s' = CsvReader.data sample_rows /\
    CsvReader.size s' = 2 /\
    selected_offsets s'
    = List.firstn (Z.to_nat 2) (selected_offsets sample_rows).
Proof. apply (shrink_keeps_prefix sample_rows 2). cbn. lia. Defined.

(** X3: [erase_first_n] of a selection inside its vector keeps the vector
    and the end of the selection, moves the start by [n] and shows the row
    offsets after the first [n]. *)
Theorem erase_first_n_keeps_suffix (s : selected_rows_offsets) (n : Z) :
  selection_invariant s ->
  0 <= n -> n <= CsvReader.size s ->
  exists s' : selected_rows_offsets,
    erase_first_n s n = Ok s' /\
    all s' = all s /\
    CsvReader.data s' = CsvReader.data s + n /\
    CsvReader.size s' = CsvReader.size s - n /\
    CsvReader.data s' + CsvReader.size s' = CsvReader.data s + CsvReader.size s /\
    selected_offsets s' = List.skipn (Z.to_nat n) (selected_offsets s).
Proof.
  intros (Hd & Hs & He & Hm) Hn Hle. rewrite erase_first_n_unfold.
  destruct (Z.leb_spec n (CsvReader.size s)); [| lia].
  assert (Hlen : Z.of_nat (List.length (uvector_elements (all s))) <= SIZE_MAX)
    by exact Hm.
  unfold uvector_size in He.
  rewrite wrap_size_t_id by lia.
  eexists. split; [reflexivity |].
  unfold selected_offsets, CsvReader.size, CsvReader.data in *. cbn.
  repeat (split; [first [reflexivity | lia] |]).
  rewrite List.skipn_firstn_comm, List.skipn_skipn. f_equal; [lia |].
  f_equal. lia.
Qed.

Lemma erase_first_n_keeps_suffix_witness :
  exists s' : selected_rows_offsets,
    erase_first_n sample_rows 3 = Ok s' /\
    all s' = all sample_rows /\
    CsvReader.data s' = CsvReader.data sample_rows + 3 /\
    CsvReader.size s' = CsvReader.size sample_rows - 3 /\
    CsvReader.data s' + CsvReader.size s'
    = CsvReader.data sample_rows + CsvReader.size sample_rows /\
    selected_offsets s' = List.skipn (Z.to_nat 3) (selected_offsets sample_rows).
Proof.
  apply (erase_first_n_keeps_suffix sample_rows 3).
  - unfold selection_invariant, SIZE_MAX; cbn; lia.
  - lia.
  - cbn; lia.
Defined.

(** X4: a selection that is a window of its vector stays one under
    [shrink] and under [erase_first_n]. *)
Theorem selection_invariant_kept (s : selected_rows_offsets) (k : Z) :
  selection_invariant s -> 0 <= k ->
  (forall s', shrink s k = Ok s' -> selection_invariant s') /\
  (forall s', erase_first_n s k = Ok s' -> selection_invariant s').
Proof.
  intros (Hd & Hs & He & Hm) Hk.
  rewrite shrink_unfold, erase_first_n_unfold.
  destruct (Z.leb_spec k (CsvReader.size s)); split; intros s' Hx;
    try discriminate; injection Hx as <-.
  - unfold selection_invariant, CsvReader.size, CsvReader.data in *.
    cbn [all selected span_data span_size]. lia.
  - unfold selection_invariant, CsvReader.size, CsvReader.data in *.
    cbn [all selected span_data span_size].
    rewrite wrap_size_t_id by (unfold uvector_size in *; lia). lia.
Qed.

Lemma selection_invariant_kept_witness :
  (forall s', shrink sample_rows 1 = Ok s' -> selection_invariant s') /\
  (forall s', erase_first_n sample_rows 1 = Ok s' -> selection_invariant s').
Proof.
  apply (selection_invariant_kept sample_rows 1).
  - unfold selection_invariant, SIZE_MAX; cbn; lia.
  - lia.
Defined.

(** X5: dropping the first [n] row offsets and then keeping [k] is the
    same as keeping [n + k] and then dropping the first [n]. *)
Theorem erase_then_shrink (s : selected_rows_offsets) (n k : Z) :
  selection_invariant s ->
  0 <= n -> 0 <= k -> n + k <= CsvReader.size s ->
  bind (erase_first_n s n) (fun s1 => shrink s1 k)
  = bind (shrink s (n + k)) (fun s2 => erase_first_n s2 n)
  /\ succeeds (bind (erase_first_n s n) (fun s1 => shrink s1 k)).
Proof.
  intros (Hd & Hs & He & Hm) Hn Hk Hle. unfold uvector_size in *.
  rewrite erase_first_n_unfold, shrink_unfold.
  destruct (Z.leb_spec n (CsvReader.size s)); [| lia].
  destruct (Z.leb_spec (n + k) (CsvReader.size s)); [| lia].
  cbn [bind]. rewrite shrink_unfold, erase_first_n_unfold.
  unfold CsvReader.size, CsvReader.data in *. cbn.
  rewrite (wrap_size_t_id (span_size (selected s) - n)) by lia.
  rewrite (wrap_size_t_id (n + k - n)) by lia.
  destruct (Z.leb_spec k (span_size (selected s) - n)); [| lia].
  destruct (Z.leb_spec n (n + k)); [| lia].
  split; [| apply succeeds_Ok].
  do 3 f_equal; lia.
Qed.

Lemma erase_then_shrink_witness :
  bind (erase_first_n sample_rows 1) (fun s1 => shrink s1 2)
  = bind (shrink sample_rows (1 + 2)) (fun s2 => erase_first_n s2 1)
  /\ succeeds (bind (erase_first_n sample_rows 1) (fun s1 => shrink s1 2)).
Proof.
  apply (erase_then_shrink sample_rows 1 2).
  - unfold selection_invariant, SIZE_MAX; cbn; lia.
  - lia.
  - lia.
  - cbn; lia.
Defined.

(** X6: two [erase_first_n] in a row are one that drops the sum, and two
    [shrink] in a row are the smaller one. *)
Theorem erase_erase_shrink_shrink (s : selected_rows_offsets) (a b : Z) :
  selection_invariant s ->
  0 <= a -> 0 <= b -> a + b <= CsvReader.size s ->
  bind (erase_first_n s a) (fun s1 => erase_first_n s1 b)
  = erase_first_n s (a + b) /\
  bind (shrink s (a + b)) (fun s1 => shrink s1 a) = shrink s a /\
  succeeds (erase_first_n s (a + b)) /\ succeeds (shrink s a).
Proof.
  intros (Hd & Hs & He & Hm) Ha Hb Hle. unfold uvector_size in *.
  rewrite !erase_first_n_unfold, !shrink_unfold.
  destruct (Z.leb_spec a (CsvReader.size s)); [| lia].
  destruct (Z.leb_spec (a + b) (CsvReader.size s)); [| lia].
  cbn [bind]. rewrite erase_first_n_unfold, shrink_unfold.
  unfold CsvReader.size, CsvReader.data in *. cbn.
  rewrite (wrap_size_t_id (span_size (selected s) - a)) by lia.
  rewrite (wrap_size_t_id (span_size (selected s) - a - b)) by lia.
  rewrite (wrap_size_t_id (span_size (selected s) - (a + b))) by lia.
  destruct (Z.leb_spec b (span_size (selected s) - a)); [| lia].
  destruct (Z.leb_spec a (a + b)); [| lia].
  split; [do 3 f_equal; lia |].
  split; [do 3 f_equal; lia |].
  split; apply succeeds_Ok.
Qed.

Lemma erase_erase_shrink_shrink_witness :
  bind (erase_first_n sample_rows 1) (fun s1 => erase_first_n s1 2)
  = erase_first_n sample_rows (1 + 2) /\
  bind (shrink sample_rows (1 + 2)) (fun s1 => shrink s1 1)
  = shrink sample_rows 1 /\
  succeeds (erase_first_n sample_rows (1 + 2)) /\
  succeeds (shrink sample_rows 1).
Proof.
  apply (erase_erase_shrink_shrink sample_rows 1 2).
  - unfold selection_invariant, SIZE_MAX; cbn; lia.
  - lia.
  - lia.
  - cbn; lia.
Defined.

End SelectedRowsFacts.

(** ** More of the trait registry *)

Section MoreTraitFacts.

(** X7: every type is fixed-width or compound, and never both. *)
Theorem fixed_width_or_compound (t : data_type) :
  is_fixed_width t = negb (is_compound t).
Proof. by_type_id t; reflexivity. Qed.

(** X8: a numeric type is exactly one of index type, floating point and
    boolean; a type that is not numeric is none of the three. *)
Theorem numeric_kinds (t : data_type) :
  count_true [is_index_type t; is_floating_point t; is_boolean t]
  = if is_numeric t then 1%nat else 0%nat.
Proof. by_type_id t; reflexivity. Qed.

(** X9: [is_unsigned] holds of the four UINT types and of BOOL8, and of
    nothing else; every unsigned type is numeric and none is floating
    point. *)
Theorem is_unsigned_types (t : data_type) :
  (is_unsigned t = true <->
   List.In (id t) [UINT8; UINT16; UINT32; UINT64; BOOL8]) /\
  (is_unsigned t = true ->
   is_numeric t = true /\ is_floating_point t = false).
Proof.
  split.
  - by_type_id t; cbn; split; intros H;
      solve [ reflexivity | discriminate | tauto
            | repeat (destruct H as [H | H]; try discriminate); contradiction ].
  - by_type_id t; cbn; intros H; first [discriminate | split; reflexivity].
Qed.

(** X10: an element type is layout compatible with its representation
    exactly when it is fixed-width and not fixed-point. *)
Theorem rep_layout_compatible_fixed_width (T : cpp_type) :
  is_rep_layout_compatible T = is_fixed_width_v T && negb (is_fixed_point_v T).
Proof. destruct T; reflexivity. Qed.

Variable L : class_layout.

Lemma negb_is_compound (t : data_type) : negb (is_compound t) = is_fixed_width t.
Proof. by_type_id t; reflexivity. Qed.

Lemma fixed_width_trivially_copyable (t : data_type) :
  is_fixed_width t = true -> is_trivially_copyable_v L (id_to_type (id t)) = true.
Proof. by_type_id t; cbn; intros H; first [reflexivity | discriminate]. Qed.

(** X11: two types are bit-castable exactly when both are fixed-width and
    their storage representations have the same byte size. *)
Theorem is_bit_castable_characterized (from to : data_type) :
  is_bit_castable L from to =
  is_fixed_width from && is_fixed_width to
  && (storage_size L (id_to_type (id from)) =? storage_size L (id_to_type (id to))).
Proof.
  rewrite is_bit_castable_unfold, !negb_is_compound.
  destruct (is_fixed_width from) eqn:Hf; [| reflexivity].
  destruct (is_fixed_width to) eqn:Ht; [| reflexivity].
  now rewrite !fixed_width_trivially_copyable.
Qed.

Lemma is_bit_castable_true_iff (from to : data_type) :
  is_bit_castable L from to = true <->
  is_fixed_width from = true /\ is_fixed_width to = true /\
  storage_size L (id_to_type (id from)) = storage_size L (id_to_type (id to)).
Proof.
  rewrite is_bit_castable_unfold, !negb_is_compound.
  destruct (is_fixed_width from) eqn:Hf;
    [| cbn; split; [discriminate | intros (H & _); discriminate]].
  destruct (is_fixed_width to) eqn:Ht;
    [| cbn; split; [discriminate | intros (_ & H & _); discriminate]].
  rewrite !fixed_width_trivially_copyable by assumption. cbn.
  rewrite Z.eqb_eq. tauto.
Qed.

(** X12: bit-castability is symmetric and transitive. *)
Theorem is_bit_castable_symmetric_transitive (a b c : data_type) :
  is_bit_castable L a b = is_bit_castable L b a /\
  (is_bit_castable L a b = true -> is_bit_castable L b c = true ->
   is_bit_castable L a c = true).
Proof.
  split.
  - destruct (is_bit_castable L a b) eqn:Hab, (is_bit_castable L b a) eqn:Hba;
      try reflexivity.
    + apply is_bit_castable_true_iff in Hab as (H1 & H2 & H3).
      rewrite <- Hba. symmetry. apply is_bit_castable_true_iff. auto.
    + apply is_bit_castable_true_iff in Hba as (H1 & H2 & H3).
      rewrite <- Hab. apply is_bit_castable_true_iff. auto.
  - intros Hab Hbc.
    apply is_bit_castable_true_iff in Hab as (H1 & H2 & H3).
    apply is_bit_castable_true_iff in Hbc as (H4 & H5 & H6).
    apply is_bit_castable_true_iff. repeat split; congruence.
Qed.

End MoreTraitFacts.

Lemma is_bit_castable_symmetric_transitive_witness :
  is_bit_castable sample_layout (data_type_of_id INT32) (data_type_of_id FLOAT32)
  = is_bit_castable sample_layout (data_type_of_id FLOAT32) (data_type_of_id INT32)
  /\ is_bit_castable sample_layout (data_type_of_id INT32)
       (data_type_of_id TIMESTAMP_DAYS) = true.
Proof.
  split.
  - exact (proj1 (is_bit_castable_symmetric_transitive sample_layout
             (data_type_of_id INT32) (data_type_of_id FLOAT32)
             (data_type_of_id TIMESTAMP_DAYS))).
  - apply (proj2 (is_bit_castable_symmetric_transitive sample_layout
             (data_type_of_id INT32) (data_type_of_id FLOAT32)
             (data_type_of_id TIMESTAMP_DAYS))); reflexivity.
Defined.


(** ** More of the scalar factories *)

Section MoreScalarFactoryFacts.

Lemma make_default_constructed_scalar_fixed_width (t : data_type) :
  is_fixed_width t = true ->
  make_default_constructed_scalar t = Ok (null_zero (id t)).
Proof. by_type_id t; cbn; intros H; first [reflexivity | discriminate]. Qed.

(** X13: the call operator of [scalar_construction_helper] fails, with
    "Invalid type.", exactly for the element types that are not
    fixed-width; for every other element type it returns the null scalar
    of value zero and scale zero with the tag of that type. *)
Theorem scalar_construction_helper_contract (T : cpp_type) :
  scalar_construction_helper T =
  if is_fixed_width_v T then Ok (null_zero (type_to_id T))
  else logic_error "Invalid type.".
Proof. destruct T; reflexivity. Qed.

(** X14: a failure of one of the four typed factories always carries the
    message of the factory's own guard; the helper's "Invalid type." is
    never reached through them.  A failure of
    [make_default_constructed_scalar] is one of the three "not supported"
    messages, never the guard of [make_fixed_width_scalar]. *)
Theorem factory_failure_messages (t : data_type) (msg : string) :
  (make_numeric_scalar t = logic_error msg ->
   msg = "Invalid, non-numeric type."%string) /\
  (make_timestamp_scalar t = logic_error msg ->
   msg = "Invalid, non-timestamp type."%string) /\
  (make_duration_scalar t = logic_error msg ->
   msg = "Invalid, non-duration type."%string) /\
  (make_fixed_width_scalar t = logic_error msg ->
   msg = "Invalid, non-fixed-width type."%string) /\
  (make_default_constructed_scalar t = logic_error msg ->
   List.In msg [ "dictionary type not supported"%string;
                 "list_view type not supported"%string;
                 "struct_view type not supported"%string ]).
Proof.
  rewrite make_numeric_scalar_unfold, make_timestamp_scalar_unfold,
    make_duration_scalar_unfold, make_fixed_width_scalar_unfold.
  repeat split.
  - destruct (is_numeric t); congruence.
  - destruct (is_timestamp t); congruence.
  - destruct (is_duration t); congruence.
  - destruct (is_fixed_width t); congruence.
  - by_type_id t; cbn; intros H; try discriminate;
      injection H as <-; tauto.
Qed.

(** X15: whatever one of [make_numeric_scalar], [make_timestamp_scalar]
    and [make_duration_scalar] returns for a type, [make_fixed_width_scalar]
    and [make_default_constructed_scalar] return for it as well. *)
Theorem typed_factories_agree (t : data_type) (s : scalar) :
  make_numeric_scalar t = Ok s \/ make_timestamp_scalar t = Ok s \/
  make_duration_scalar t = Ok s ->
  make_fixed_width_scalar t = Ok s /\
  make_default_constructed_scalar t = Ok s.
Proof.
  rewrite make_numeric_scalar_unfold, make_timestamp_scalar_unfold,
    make_duration_scalar_unfold, make_fixed_width_scalar_unfold.
  intros H.
  assert (Hfw : is_fixed_width t = true /\ s = null_zero (id t)).
  { destruct H as [H | [H | H]].
    - destruct (is_numeric t) eqn:E; [| discriminate].
      split; [now apply numeric_is_fixed_width | congruence].
    - destruct (is_timestamp t) eqn:E; [| discriminate].
      split; [now apply timestamp_is_fixed_width | congruence].
    - destruct (is_duration t) eqn:E; [| discriminate].
      split; [now apply duration_is_fixed_width | congruence]. }
  destruct Hfw as [Hfw ->]. rewrite Hfw.
  split; [reflexivity |].
  now apply make_default_constructed_scalar_fixed_width.
Qed.

Lemma typed_factories_agree_witness :
  make_fixed_width_scalar (data_type_of_id TIMESTAMP_SECONDS)
  = Ok (null_zero TIMESTAMP_SECONDS) /\
  make_default_constructed_scalar (data_type_of_id TIMESTAMP_SECONDS)
  = Ok (null_zero TIMESTAMP_SECONDS).
Proof.
  apply (typed_factories_agree (data_type_of_id TIMESTAMP_SECONDS)
           (null_zero TIMESTAMP_SECONDS)).
  right. left. reflexivity.
Defined.

(** X16: for every type at most one of [make_numeric_scalar],
    [make_timestamp_scalar] and [make_duration_scalar] succeeds, and
    [make_fixed_width_scalar] succeeds exactly when one of them does or
    the type is fixed-point. *)
Theorem typed_factories_exclusive (t : data_type) :
  (count_true [ is_numeric t; is_timestamp t; is_duration t ] <= 1)%nat /\
  (succeeds (make_numeric_scalar t) <-> is_numeric t = true) /\
  (succeeds (make_timestamp_scalar t) <-> is_timestamp t = true) /\
  (succeeds (make_duration_scalar t) <-> is_duration t = true) /\
  (succeeds (make_fixed_width_scalar t) <->
   succeeds (make_numeric_scalar t) \/ succeeds (make_timestamp_scalar t) \/
   succeeds (make_duration_scalar t) \/ is_fixed_point t = true).
Proof.
  rewrite make_numeric_scalar_unfold, make_timestamp_scalar_unfold,
    make_duration_scalar_unfold, make_fixed_width_scalar_unfold.
  split; [by_type_id t; cbn; lia |].
  assert (Hs : forall (c : bool) (a : scalar) (m : string),
             succeeds (if c then Ok a else logic_error m) <-> c = true).
  { intros [] a m; split; intros H; auto with result_db; try discriminate.
    exfalso; revert H; apply not_succeeds_logic_error. }
  rewrite !Hs. repeat (split; [reflexivity |]).
  by_type_id t; cbn; split; intros H;
    solve [ tauto | discriminate
          | repeat (destruct H as [H | H]; try discriminate) ].
Qed.

(** X17: for a fixed-width type, whatever its scale,
    [make_default_constructed_scalar] returns what
    [make_fixed_width_scalar] returns: the null scalar of value zero and
    scale zero with the tag of the type. *)
Theorem default_scalar_of_fixed_width (t : data_type) :
  is_fixed_width t = true ->
  make_default_constructed_scalar t = make_fixed_width_scalar t /\
  make_default_constructed_scalar t = Ok (null_zero (id t)).
Proof.
  intros H. rewrite make_fixed_width_scalar_unfold, H.
  split; now apply make_default_constructed_scalar_fixed_width.
Qed.

Lemma default_scalar_of_fixed_width_witness :
  make_default_constructed_scalar (mk_data_type DECIMAL64 (-3))
  = make_fixed_width_scalar (mk_data_type DECIMAL64 (-3)) /\
  make_default_constructed_scalar (mk_data_type DECIMAL64 (-3))
  = Ok (null_zero DECIMAL64).
Proof.
  apply (default_scalar_of_fixed_width (mk_data_type DECIMAL64 (-3))).
  reflexivity.
Defined.

(** X18: every scalar [make_default_constructed_scalar] returns is null
    and has the tag of the requested type with scale zero. *)
Theorem default_scalar_is_null (t : data_type) (s : scalar) :
  make_default_constructed_scalar t = Ok s ->
  is_valid_flag s = false /\ scalar_type s = data_type_of_id (id t).
Proof.
  by_type_id t; cbn; intros H; try discriminate; injection H as <-;
    split; reflexivity.
Qed.

Lemma default_scalar_is_null_witness :
  is_valid_flag (string_scalar EmptyString false) = false /\
  scalar_type (string_scalar EmptyString false) = data_type_of_id STRING.
Proof.
  apply (default_scalar_is_null (data_type_of_id STRING)
           (string_scalar EmptyString false)).
  reflexivity.
Defined.

End MoreScalarFactoryFacts.

(** ** More of slicing *)

Section MoreSliceFacts.

(** X19: when several range checks of [slice] fail, the failure reported
    is that of the first check in the order begin, end, bounds. *)
Theorem slice_failure_messages (input : column_view) (b e : size_type) :
  (b < 0 -> slice input b e = logic_error "Invalid beginning of range.") /\
  (0 <= b -> e < b -> slice input b e = logic_error "Invalid end of range.") /\
  (0 <= b -> b <= e -> size input < e ->
   slice input b e = logic_error "Slice range out of bounds.").
Proof.
  rewrite slice_unfold. repeat split; intros.
  - destruct (Z.ltb_spec b 0); [reflexivity | lia].
  - destruct (Z.ltb_spec b 0); [lia |].
    destruct (Z.ltb_spec e b); [reflexivity | lia].
  - destruct (Z.ltb_spec b 0); [lia |].
    destruct (Z.ltb_spec e b); [lia |].
    destruct (Z.ltb_spec (size input) e); [reflexivity | lia].
Qed.

Lemma slice_failure_messages_witness :
  slice sample_view (-1) (-5) = logic_error "Invalid beginning of range." /\
  slice sample_view 3 2 = logic_error "Invalid end of range." /\
  slice sample_view 3 9 = logic_error "Slice range out of bounds.".
Proof.
  split; [| split].
  - apply (slice_failure_messages sample_view (-1) (-5)). lia.
  - apply (slice_failure_messages sample_view 3 2); lia.
  - apply (slice_failure_messages sample_view 3 9); cbn; lia.
Defined.

Lemma slice_in_range_exact (input : column_view) (b e : size_type) :
  view_invariant input -> 0 <= b -> b <= e -> e <= size input ->
  slice input b e =
  Ok (mk_column_view (type input) (e - b) (head input) (null_mask input)
        UNKNOWN_NULL_COUNT (offset input + b) (children input)).
Proof.
  intros (Ho & Hn & Hend) Hb He Hs. rewrite (slice_in_range input b e Hb He Hs).
  unfold INT32_MAX in Hend.
  rewrite !wrap_size_type_id by (unfold in_size_type, INT32_MIN, INT32_MAX; lia).
  reflexivity.
Qed.

(** X20: a slice of a valid view is a valid view whose window lies inside
    the window of the input. *)
Theorem slice_keeps_invariant (input : column_view) (b e : size_type) :
  view_invariant input -> 0 <= b -> b <= e -> e <= size input ->
  exists s : column_view,
    slice input b e = Ok s /\
    view_invariant s /\
    offset input <= offset s /\
    offset s + size s <= offset input + size input.
Proof.
  intros Hinv Hb He Hs. rewrite (slice_in_range_exact input b e Hinv Hb He Hs).
  destruct Hinv as (Ho & Hn & Hend).
  eexists. split; [reflexivity |].
  unfold view_invariant, INT32_MAX in *. cbn [offset size]. lia.
Qed.

Lemma slice_keeps_invariant_witness :
  exists s : column_view,
    slice sample_view 2 5 = Ok s /\
    view_invariant s /\
    offset sample_view <= offset s /\
    offset s + size s <= offset sample_view + size sample_view.
Proof.
  apply (slice_keeps_invariant sample_view 2 5).
  - unfold view_invariant, INT32_MAX; cbn; lia.
  - lia.
  - lia.
  - cbn; lia.
Defined.

(** X21: a slice of a slice is one slice of the original view, with the
    inner bounds shifted by the outer begin. *)
Theorem slice_of_slice (input : column_view) (b e b' e' : size_type) :
  view_invariant input -> 0 <= b -> b <= e -> e <= size input ->
  0 <= b' -> b' <= e' -> e' <= e - b ->
  bind (slice input b e) (fun s => slice s b' e')
  = slice input (b + b') (b + e') /\
  succeeds (slice input (b + b') (b + e')).
Proof.
  intros Hinv Hb He Hs Hb' He' Hs'.
  rewrite (slice_in_range_exact input b e Hinv Hb He Hs). cbn [bind].
  rewrite (slice_in_range_exact input (b + b') (b + e') Hinv) by lia.
  rewrite slice_in_range_exact.
  - cbn. split; [| apply succeeds_Ok]. do 2 f_equal; lia.
  - destruct Hinv as (Ho & Hn & Hend).
    unfold view_invariant, INT32_MAX in *. cbn [offset size]. lia.
  - exact Hb'.
  - exact He'.
  - cbn. exact Hs'.
Qed.

Lemma slice_of_slice_witness :
  bind (slice sample_view 2 7) (fun s => slice s 1 3)
  = slice sample_view (2 + 1) (2 + 3) /\
  succeeds (slice sample_view (2 + 1) (2 + 3)).
Proof.
  apply (slice_of_slice sample_view 2 7 1 3); try lia.
  - unfold view_invariant, INT32_MAX; cbn; lia.
  - cbn; lia.
Defined.

(** X22: the slice of the whole range of a valid view is the view itself
    with its null count replaced by the unknown-null-count sentinel. *)
Theorem slice_whole_range (input : column_view) :
  view_invariant input ->
  slice input 0 (size input) =
  Ok (mk_column_view (type input) (size input) (head input) (null_mask input)
        UNKNOWN_NULL_COUNT (offset input) (children input)).
Proof.
  intros Hinv. pose proof Hinv as (Ho & Hn & Hend).
  rewrite (slice_in_range_exact input 0 (size input) Hinv) by lia.
  now rewrite Z.sub_0_r, Z.add_0_r.
Qed.

Lemma slice_whole_range_witness :
  slice sample_view 0 (size sample_view) =
  Ok (mk_column_view (type sample_view) (size sample_view) (head sample_view)
        (null_mask sample_view) UNKNOWN_NULL_COUNT (offset sample_view)
        (children sample_view)).
Proof.
  apply (slice_whole_range sample_view).
  unfold view_invariant, INT32_MAX; cbn; lia.
Defined.

(** X23: two slices that meet at a bound tile the range: the second
    begins where the first ends, their sizes add up, and they share the
    buffers and children of the input. *)
Theorem adjacent_slices_tile (input : column_view) (a b c : size_type) :
  view_invariant input -> 0 <= a -> a <= b -> b <= c -> c <= size input ->
  exists s1 s2 : column_view,
    slice input a b = Ok s1 /\ slice input b c = Ok s2 /\
    offset s2 = offset s1 + size s1 /\
    size s1 + size s2 = c - a /\
    head s1 = head s2 /\ null_mask s1 = null_mask s2 /\
    children s1 = children s2.
Proof.
  intros Hinv Ha Hb Hc Hs.
  rewrite (slice_in_range_exact input a b Hinv) by lia.
  rewrite (slice_in_range_exact input b c Hinv) by lia.
  do 2 eexists. split; [reflexivity |]. split; [reflexivity |].
  cbn. repeat split; lia.
Qed.

Lemma adjacent_slices_tile_witness :
  exists s1 s2 : column_view,
    slice sample_view 1 4 = Ok s1 /\ slice sample_view 4 8 = Ok s2 /\
    offset s2 = offset s1 + size s1 /\
    size s1 + size s2 = 8 - 1 /\
    head s1 = head s2 /\ null_mask s1 = null_mask s2 /\
    children s1 = children s2.
Proof.
  apply (adjacent_slices_tile sample_view 1 4 8); try lia.
  - unfold view_invariant, INT32_MAX; cbn; lia.
  - cbn; lia.
Defined.

End MoreSliceFacts.
